(** * bimmer_connected.state: the state of a connected vehicle

    A shallow embedding of [bimmer_connected/state.py] and the properties
    of its accessors.  Python values read from the backend are JSON
    values; a Python call is a computation that may log and may raise. *)

From Stdlib Require Import ZArith String Ascii List Lia.
From Stdlib Require Import PrimFloat SpecFloat FloatOps.
From stdpp Require Import gmap strings list fin_maps.

Local Open Scope Z_scope.

Set Warnings "-register-all".

(** ** Values decoded from the backend's JSON document

    [json.loads] yields [None], [bool], [int], [float] (a binary64),
    [str], [list] and [dict] with string keys. *)

Inductive json : Type :=
| JNull
| JBool (b : bool)
| JInt (z : Z)
| JFloat (f : float)
| JStr (s : string)
| JList (l : list json)
| JObj (d : gmap string json).

(** ** Text

    A [str] is a sequence of characters, each a code point of Unicode.
    The text of a JSON string is kept as its UTF-8 bytes, and [decode]
    reads the characters back, each with its bytes; a byte that does
    not begin a well-formed sequence stands for itself. *)

Definition continuation (b : ascii) : bool :=
  (128 <=? N_of_ascii b)%N && (N_of_ascii b <? 192)%N.

Definition low6 (b : ascii) : N := (N_of_ascii b - 128)%N.

(** The code points that sequences of two, three and four bytes encode. *)
Definition two_bytes (c : N) : bool := (128 <=? c)%N.

Definition three_bytes (c : N) : bool :=
  (2048 <=? c)%N && negb ((55296 <=? c)%N && (c <=? 57343)%N).

Definition four_bytes (c : N) : bool := (65536 <=? c)%N && (c <=? 1114111)%N.

Fixpoint decode (s : string) : list (N * string) :=
  match s with
  | EmptyString => []
  | String b0 s0 =>
      let n0 := N_of_ascii b0 in
      if (n0 <? 192)%N then (n0, String b0 "") :: decode s0
      else
        match s0 with
        | EmptyString => (n0, String b0 "") :: decode s0
        | String b1 s1 =>
            if negb (continuation b1) then (n0, String b0 "") :: decode s0
            else if (n0 <? 224)%N then
              let c := ((n0 - 192) * 64 + low6 b1)%N in
              if two_bytes c then (c, String b0 (String b1 "")) :: decode s1
              else (n0, String b0 "") :: decode s0
            else
              match s1 with
              | EmptyString => (n0, String b0 "") :: decode s0
              | String b2 s2 =>
                  if negb (continuation b2) then (n0, String b0 "") :: decode s0
                  else if (n0 <? 240)%N then
                    let c := ((n0 - 224) * 4096 + low6 b1 * 64 + low6 b2)%N in
                    if three_bytes c then
                      (c, String b0 (String b1 (String b2 ""))) :: decode s2
                    else (n0, String b0 "") :: decode s0
                  else
                    match s2 with
                    | EmptyString => (n0, String b0 "") :: decode s0
                    | String b3 s3 =>
                        let c := ((n0 - 240) * 262144 + low6 b1 * 4096
                                  + low6 b2 * 64 + low6 b3)%N in
                        if continuation b3 && (n0 <? 248)%N && four_bytes c then
                          (c, String b0 (String b1 (String b2 (String b3 ""))))
                          :: decode s3
                        else (n0, String b0 "") :: decode s0
                    end
              end
        end
  end.

Definition code_points (s : string) : list N := (decode s).*1.

(** The characters of a text, each as a text of its own. *)
Definition characters (s : string) : list string := (decode s).*2.

(** The code points of a text of ASCII characters. *)
Definition codes (s : string) : list N := N_of_ascii <$> list_ascii_of_string s.

(** ** Exceptions, logging and the computation type *)

(** The exceptions that the module can meet.  [ValueError] keeps the
    fixed part of its message, [KeyError] the missing key and
    [AttributeError] the attribute that was looked up. *)
Inductive exn : Type :=
| ValueError (msg : string)
| KeyError (key : string)
| TypeError
| AttributeError (attr : string)
| OverflowError.

Inductive outcome (A : Type) : Type :=
| Raise (e : exn)
| Return (a : A).
Arguments Raise {A} e.
Arguments Return {A} a.

Inductive level : Type := DEBUG | WARNING | ERROR.

(** A record handed to [_LOGGER]: the format string and its arguments,
    kept apart as [logging] keeps them. *)
Record LogRecord : Type := { levelname : level; msg : string; args : list json }.

(** A call produces the records it logged, in order, and either raises
    or returns. *)
Definition Py (A : Type) : Type := (list LogRecord * outcome A)%type.

Definition logged {A} (m : Py A) : list LogRecord := fst m.
Definition result {A} (m : Py A) : outcome A := snd m.

Definition raise {A} (e : exn) : Py A := ([], Raise e).

#[export] Instance Py_ret : MRet Py := λ A a, ([], Return a).

#[export] Instance Py_bind : MBind Py := λ A B k m,
  match m with
  | (l, Raise e) => (l, Raise e)
  | (l, Return a) => let '(l', r) := k a in (l ++ l', r)
  end.

#[export] Instance Py_fmap : FMap Py := λ A B f m,
  match m with
  | (l, Raise e) => (l, Raise e)
  | (l, Return a) => (l, Return (f a))
  end.

Definition log (lv : level) (fmt : string) (a : list json) : Py unit :=
  ([{| levelname := lv; msg := fmt; args := a |}], Return tt).

(** [try: body except E: handler], where [handles] tells whether an
    exception is an instance of [E]. *)
Definition try_except {A} (body : Py A) (handles : exn → bool) (handler : Py A) : Py A :=
  match body with
  | (l, Raise e) =>
      if handles e then let '(l', r) := handler in (l ++ l', r) else (l, Raise e)
  | (l, Return a) => (l, Return a)
  end.

Definition is_KeyError (e : exn) : bool :=
  match e with KeyError _ => true | _ => false end.

Definition is_ValueError (e : exn) : bool :=
  match e with ValueError _ => true | _ => false end.

(** ** Builtins *)

(** [float(str)] and [int(str)] are taken as given: [None] stands for
    the [ValueError] that Python raises on a string it cannot read.
    So is the table of the decimal digits of Unicode (the characters of
    category Nd), which [\d] and [int] consult: [decimal_value c] is
    the value of the code point [c] when it is such a digit.  A decimal
    digit has a value from 0 to 9, and among the ASCII characters the
    decimal digits are [0] to [9]. *)
Class Builtins : Type := {
  str_to_float : string → option float;
  str_to_int : string → option Z;
  decimal_value : N → option Z;
  decimal_value_digit : ∀ c v, decimal_value c = Some v → 0 ≤ v ≤ 9;
  decimal_value_ascii : ∀ c, (c < 128)%N →
    decimal_value c
    = if (48 <=? c)%N && (c <=? 57)%N then Some (Z.of_N c - 48) else None
}.

(** [d[key]] on a [dict]. *)
Definition dict_getitem (d : gmap string json) (key : string) : Py json :=
  match d !! key with
  | Some v => mret v
  | None => raise (KeyError key)
  end.

(** [obj[key]] with a string key: only a [dict] can be subscripted so. *)
Definition getitem (obj : json) (key : string) : Py json :=
  match obj with
  | JObj d => dict_getitem d key
  | _ => raise TypeError
  end.

(** [value == s] for a string literal [s]. *)
Definition eq_str (value : json) (s : string) : bool :=
  match value with
  | JStr t => bool_decide (t = s)
  | _ => false
  end.

(** [key in obj] for a string [key]. *)
Definition contains (obj : json) (key : string) : Py bool :=
  match obj with
  | JObj d => mret (bool_decide (is_Some (d !! key)))
  | JList l => mret (existsb (λ v, eq_str v key) l)
  | JStr s => mret (match index 0 key s with Some _ => true | None => false end)
  | _ => raise TypeError
  end.

(** [float(int)]: the nearest binary64, ties to even; [None] stands for
    [OverflowError]. *)
Definition int_to_float (z : Z) : option float :=
  let f := SF2Prim (binary_normalize 53 1024 z 0 false) in
  if PrimFloat.is_infinity f then None else Some f.

(** [int(float)]: truncation towards zero. *)
Definition float_to_int (f : float) : Py Z :=
  match Prim2SF f with
  | S754_zero _ => mret 0
  | S754_infinity _ => raise OverflowError
  | S754_nan => raise (ValueError "cannot convert float NaN to integer")
  | S754_finite s m e =>
      let a := match e with
               | Z0 => Z.pos m
               | Z.pos p => Z.pos m * 2 ^ Z.pos p
               | Z.neg p => Z.pos m / 2 ^ Z.pos p
               end in
      mret (if s then - a else a)
  end.

(** [float(value)]. *)
Definition py_float `{Builtins} (value : json) : Py float :=
  match value with
  | JFloat f => mret f
  | JInt z =>
      match int_to_float z with
      | Some f => mret f
      | None => raise OverflowError
      end
  | JBool b => mret (if b then 1%float else 0%float)
  | JStr s =>
      match str_to_float s with
      | Some f => mret f
      | None => raise (ValueError "could not convert string to float")
      end
  | _ => raise TypeError
  end.

(** [int(value)]. *)
Definition py_int `{Builtins} (value : json) : Py Z :=
  match value with
  | JInt z => mret z
  | JBool b => mret (if b then 1 else 0)
  | JFloat f => float_to_int f
  | JStr s =>
      match str_to_int s with
      | Some z => mret z
      | None => raise (ValueError "invalid literal for int() with base 10")
      end
  | _ => raise TypeError
  end.

(** [for x in obj]: the elements met, or [TypeError] when [obj] is not
    iterable.  A [dict] yields its keys and a [str] its characters. *)
Definition iterate (obj : json) : Py (list json) :=
  match obj with
  | JList l => mret l
  | JObj d => mret (JStr <$> (map_to_list d).*1)
  | JStr s => mret (JStr <$> characters s)
  | _ => raise TypeError
  end.

(** [Enum(value)]: the member whose value is [value], else [ValueError]. *)
Definition enum_call {E} (cls : string) (members : list (string * E)) (value : json) : Py E :=
  match value with
  | JStr s =>
      match list_find (λ p, p.1 = s) members with
      | Some (_, (_, e)) => mret e
      | None => raise (ValueError ("is not a valid " +:+ cls))
      end
  | _ => raise (ValueError ("is not a valid " +:+ cls))
  end.

(** ** [datetime] *)

Record datetime : Type := {
  year : Z; month : Z; day : Z;
  hour : Z; minute : Z; second : Z; microsecond : Z;
  tzinfo : option Z  (* the fixed offset from UTC, in seconds *)
}.

Definition is_leap (y : Z) : bool :=
  (y mod 4 =? 0) && (negb (y mod 100 =? 0) || (y mod 400 =? 0)).

Definition days_in_month (y m : Z) : Z :=
  if m =? 2 then (if is_leap y then 29 else 28)
  else if (m =? 4) || (m =? 6) || (m =? 9) || (m =? 11) then 30
  else 31.

Definition between (lo x hi : Z) : bool := (lo <=? x) && (x <=? hi).

(** [datetime.datetime(year, month, day, hour, minute, second,
    microsecond, tzinfo)] with the range checks of the constructor. *)
Definition datetime_new (y m d H M S us : Z) (tz : option Z) : Py datetime :=
  if negb (between 1 y 9999) then raise (ValueError "year is out of range")
  else if negb (between 1 m 12) then raise (ValueError "month must be in 1..12")
  else if negb (between 1 d (days_in_month y m)) then
    raise (ValueError "day is out of range for month")
  else if negb (between 0 H 23) then raise (ValueError "hour must be in 0..23")
  else if negb (between 0 M 59) then raise (ValueError "minute must be in 0..59")
  else if negb (between 0 S 59) then raise (ValueError "second must be in 0..59")
  else if negb (between 0 us 999999) then
    raise (ValueError "microsecond must be in 0..999999")
  else mret {| year := y; month := m; day := d; hour := H; minute := M;
               second := S; microsecond := us; tzinfo := tz |}.

(** [date.replace(day=d)]. *)
Definition replace_day (date : datetime) (d : Z) : Py datetime :=
  datetime_new (year date) (month date) d (hour date) (minute date)
               (second date) (microsecond date) (tzinfo date).

(** [datetime.timezone(datetime.timedelta(seconds=offset))]. *)
Definition timezone (offset : Z) : Py Z :=
  if (-86400 <? offset) && (offset <? 86400) then mret offset
  else raise (ValueError "offset must be a timedelta strictly between -24h and 24h").

(** ** [datetime.datetime.strptime]

    [_strptime] turns the format into a regular expression with one
    named group per directive, matches it at the start of the text with
    a backtracking matcher, refuses unconverted data, and converts the
    groups.  The text is matched character by character; [\d] is any
    decimal digit of Unicode, and the classes and the literals of the
    directives are ASCII. *)

Inductive regex : Type :=
| Empty
| Lit (c : ascii)                 (* one character, ignoring case *)
| Range (lo hi : ascii)           (* [lo-hi] *)
| Digit                           (* \d *)
| Cat (r1 r2 : regex)
| Alt (r1 r2 : regex)             (* r1|r2, r1 tried first *)
| Group (name : ascii) (r : regex).

Definition in_range (lo hi c : ascii) : bool :=
  (N_of_ascii lo <=? N_of_ascii c)%N && (N_of_ascii c <=? N_of_ascii hi)%N.

(** [x] is a character of [[lo-hi]]. *)
Definition in_codes (lo hi : ascii) (x : N) : bool :=
  (N_of_ascii lo <=? x)%N && (x <=? N_of_ascii hi)%N.

(** The lower case of an ASCII letter; no other character is equal,
    case ignored, to a literal of the formats of the module. *)
Definition casefold (x : N) : N :=
  if (65 <=? x)%N && (x <=? 90)%N then (x + 32)%N else x.

Definition found_dict : Type := list (ascii * list N).

(** The matcher: [k] receives the text consumed by [r], the text left
    and the groups closed so far; the first success in the order of the
    alternatives is the result. *)
Fixpoint rmatch `{Builtins} {A} (r : regex) (s : list N) (found : found_dict)
    (k : list N → list N → found_dict → option A) : option A :=
  match r with
  | Empty => k [] s found
  | Lit c =>
      match s with
      | x :: s' =>
          if bool_decide (casefold x = casefold (N_of_ascii c)) then k [x] s' found
          else None
      | [] => None
      end
  | Range lo hi =>
      match s with
      | x :: s' => if in_codes lo hi x then k [x] s' found else None
      | [] => None
      end
  | Digit =>
      match s with
      | x :: s' =>
          match decimal_value x with
          | Some _ => k [x] s' found
          | None => None
          end
      | [] => None
      end
  | Cat r1 r2 =>
      rmatch r1 s found (λ c1 s1 f1,
        rmatch r2 s1 f1 (λ c2 s2 f2, k (c1 ++ c2) s2 f2))
  | Alt r1 r2 =>
      match rmatch r1 s found k with
      | Some a => Some a
      | None => rmatch r2 s found k
      end
  | Group name r1 =>
      rmatch r1 s found (λ c s' f, k c s' ((name, c) :: f))
  end.

(** [regex.match(s)]: the groups and the text after the match. *)
Definition re_match `{Builtins} (r : regex) (s : list N)
  : option (found_dict * list N) :=
  rmatch r s [] (λ _ rest f, Some (f, rest)).

Definition digit : regex := Digit.

(** The entries of [TimeRE] for the directives that the module uses.
    [%z] is a sign, two digits of hours and two of minutes, as
    [_strptime] has it up to Python 3.6; later versions read more
    forms of an offset. *)
Definition directive (d : ascii) : option regex :=
  if bool_decide (d = "Y"%char) then
    Some (Group "Y" (Cat digit (Cat digit (Cat digit digit))))
  else if bool_decide (d = "m"%char) then
    Some (Group "m" (Alt (Cat (Lit "1") (Range "0" "2"))
                    (Alt (Cat (Lit "0") (Range "1" "9")) (Range "1" "9"))))
  else if bool_decide (d = "d"%char) then
    Some (Group "d" (Alt (Cat (Lit "3") (Range "0" "1"))
                    (Alt (Cat (Range "1" "2") digit)
                    (Alt (Cat (Lit "0") (Range "1" "9"))
                    (Alt (Range "1" "9") (Cat (Lit " ") (Range "1" "9")))))))
  else if bool_decide (d = "H"%char) then
    Some (Group "H" (Alt (Cat (Lit "2") (Range "0" "3"))
                    (Alt (Cat (Range "0" "1") digit) digit)))
  else if bool_decide (d = "M"%char) then
    Some (Group "M" (Alt (Cat (Range "0" "5") digit) digit))
  else if bool_decide (d = "S"%char) then
    Some (Group "S" (Alt (Cat (Lit "6") (Range "0" "1"))
                    (Alt (Cat (Range "0" "5") digit) digit)))
  else if bool_decide (d = "z"%char) then
    Some (Group "z" (Cat (Alt (Lit "+") (Lit "-"))
                    (Cat digit (Cat digit (Cat (Range "0" "5") digit)))))
  else None.

(** [TimeRE.pattern]: each directive becomes its group, any other
    character stands for itself.  [None] is a bad or stray directive.
    (The formats of the module contain no white space.) *)
Fixpoint pattern (format : string) : option regex :=
  match format with
  | EmptyString => Some Empty
  | String "%" EmptyString => None
  | String "%" (String d rest) =>
      r ← directive d; p ← pattern rest; Some (Cat r p)
  | String c rest => p ← pattern rest; Some (Cat (Lit c) p)
  end.

(** [int(text)] on the text of a group: decimal digits, after the
    blank that [%d] allows. *)
Definition int_of_digits `{Builtins} (text : list N) : Z :=
  foldl (λ acc c, match decimal_value c with Some v => 10 * acc + v | None => acc end)
        0 text.

Definition group (found : found_dict) (name : ascii) : option (list N) :=
  match list_find (λ p, p.1 = name) found with
  | Some (_, (_, text)) => Some text
  | None => None
  end.

(** The offset in seconds that a [%z] group denotes:
    [int(z[1:3]) * 60 + int(z[3:5])] minutes, negated when [z] starts
    with ["-"]. *)
Definition utcoffset `{Builtins} (z : list N) : Z :=
  let tzoffset :=
    int_of_digits (take 2 (drop 1 z)) * 60 + int_of_digits (take 2 (drop 3 z)) in
  60 * (if bool_decide (head z = Some (N_of_ascii "-")) then - tzoffset else tzoffset).

(** The second half of [_strptime]: the groups found are converted, a
    directive that is absent keeps its default, and the constructors
    check the date, then the zone, then the time. *)
Definition datetime_of_groups `{Builtins} (found : found_dict) : Py datetime :=
  let field name default := from_option int_of_digits default (group found name) in
  let y := field "Y"%char 1900 in
  let m := field "m"%char 1 in
  let d := field "d"%char 1 in
  _ ← datetime_new y m d 0 0 0 0 None;
  tz ← match group found "z" with
       | Some z => Some <$> timezone (utcoffset z)
       | None => mret None
       end;
  datetime_new y m d (field "H"%char 0) (field "M"%char 0) (field "S"%char 0) 0 tz.

Definition strptime `{Builtins} (data_string : json) (format : string) : Py datetime :=
  match data_string with
  | JStr s =>
      match pattern format with
      | None => raise (ValueError "bad directive in format")
      | Some format_regex =>
          match re_match format_regex (code_points s) with
          | None => raise (ValueError "time data does not match format")
          | Some (found, _ :: _) => raise (ValueError "unconverted data remains")
          | Some (found, []) => datetime_of_groups found
          end
      end
  | _ => raise TypeError
  end.

(** ** The module [state] *)

Definition LIDS : list string :=
  ["doorDriverFront"; "doorPassengerFront"; "doorDriverRear"; "doorPassengerRear";
   "hood"; "trunk"].

Definition WINDOWS : list string :=
  ["windowDriverFront"; "windowPassengerFront"; "windowDriverRear"; "windowPassengerRear"].

Module LidState.
Inductive t : Type := CLOSED | OPEN | INTERMEDIATE.
#[global] Instance LidState_eq_dec : EqDecision t.
Proof. solve_decision. Defined.
Definition members : list (string * t) :=
  [("CLOSED", CLOSED); ("OPEN", OPEN); ("INTERMEDIATE", INTERMEDIATE)].
Definition value (x : t) : string :=
  match x with CLOSED => "CLOSED" | OPEN => "OPEN" | INTERMEDIATE => "INTERMEDIATE" end.
(** [LidState(value)] *)
Definition call : json → Py t := enum_call "LidState" members.
End LidState.

Module LockState.
Inductive t : Type := LOCKED | SECURED | SELECTIVELOCKED | UNLOCKED.
#[global] Instance LockState_eq_dec : EqDecision t.
Proof. solve_decision. Defined.
Definition members : list (string * t) :=
  [("LOCKED", LOCKED); ("SECURED", SECURED); ("SELECTIVELOCKED", SELECTIVELOCKED);
   ("UNLOCKED", UNLOCKED)].
Definition value (x : t) : string :=
  match x with
  | LOCKED => "LOCKED" | SECURED => "SECURED"
  | SELECTIVELOCKED => "SELECTIVELOCKED" | UNLOCKED => "UNLOCKED"
  end.
(** [LockState(value)] *)
Definition call : json → Py t := enum_call "LockState" members.
End LockState.

Module ParkingLightState.
Inductive t : Type := LEFT | RIGHT | OFF.
#[global] Instance ParkingLightState_eq_dec : EqDecision t.
Proof. solve_decision. Defined.
Definition members : list (string * t) :=
  [("LEFT", LEFT); ("RIGHT", RIGHT); ("OFF", OFF)].
Definition value (x : t) : string :=
  match x with LEFT => "LEFT" | RIGHT => "RIGHT" | OFF => "OFF" end.
(** [ParkingLightState(value)] *)
Definition call : json → Py t := enum_call "ParkingLightState" members.
End ParkingLightState.

Module ConditionBasedServiceStatus.
Inductive t : Type := OK | OVERDUE | PENDING.
#[global] Instance ConditionBasedServiceStatus_eq_dec : EqDecision t.
Proof. solve_decision. Defined.
Definition members : list (string * t) :=
  [("OK", OK); ("OVERDUE", OVERDUE); ("PENDING", PENDING)].
Definition value (x : t) : string :=
  match x with OK => "OK" | OVERDUE => "OVERDUE" | PENDING => "PENDING" end.
(** [ConditionBasedServiceStatus(value)] *)
Definition call : json → Py t := enum_call "ConditionBasedServiceStatus" members.
End ConditionBasedServiceStatus.

Module Lid.
Record t : Type := { name : string; state : LidState.t }.

Definition __init__ (name : string) (state : json) : Py t :=
  st ← LidState.call state;
  mret {| name := name; state := st |}.

Definition is_closed (self : t) : bool :=
  bool_decide (state self = LidState.CLOSED).

(** ['{}: {}'.format(self.name, self.state.value)] *)
Definition __str__ (self : t) : string :=
  name self +:+ ": " +:+ LidState.value (state self).
End Lid.

(** [class Window(Lid): pass] *)
Module Window := Lid.

Module ConditionBasedServiceReport.
Record t : Type := {
  due_date : option datetime;
  state : ConditionBasedServiceStatus.t;
  service_type : json;
  due_distance : option Z;
  description : json
}.

Definition formats : list string := ["%Y-%m"; "%m.%Y"].

(** The loop of [_parse_date] over the formats still to be tried. *)
Fixpoint _parse_date_loop `{Builtins} (formats : list string) (datestr : json)
  : Py (option datetime) :=
  match formats with
  | date_format :: formats' =>
      try_except
        (date ← strptime datestr date_format;
         Some <$> replace_day date 1)
        is_ValueError
        (_parse_date_loop formats' datestr)
  | [] =>
      log ERROR "Unknown time format for CBS: %s" [datestr];;
      mret None
  end.

Definition _parse_date `{Builtins} (datestr : json) : Py (option datetime) :=
  _parse_date_loop formats datestr.

Definition __init__ `{Builtins} (data : json) : Py t :=
  v ← getitem data "cbsDueDate";
  due_date ← _parse_date v;
  v ← getitem data "cbsState";
  state ← ConditionBasedServiceStatus.call v;
  service_type ← getitem data "cbsType";
  present ← contains data "cbsRemainingMileage";
  due_distance ←
    (if present : bool then v ← getitem data "cbsRemainingMileage"; Some <$> py_int v
     else mret None);
  description ← getitem data "cbsDescription";
  mret {| due_date := due_date; state := state; service_type := service_type;
          due_distance := due_distance; description := description |}.

(** The value of an attribute of a report. *)
Inductive attribute : Type :=
| DueDate (v : option datetime)
| State (v : ConditionBasedServiceStatus.t)
| ServiceType (v : json)
| DueDistance (v : option Z)
| Description (v : json).

(** [self.name]: the instance attributes are those that [__init__]
    sets; any other data attribute is an [AttributeError]. *)
Definition getattr (self : t) (name : string) : Py attribute :=
  if bool_decide (name = "due_date") then mret (DueDate (due_date self))
  else if bool_decide (name = "state") then mret (State (state self))
  else if bool_decide (name = "service_type") then mret (ServiceType (service_type self))
  else if bool_decide (name = "due_distance") then mret (DueDistance (due_distance self))
  else if bool_decide (name = "description") then mret (Description (description self))
  else raise (AttributeError name).

(** [a != status] for a member [status] of the enumeration. *)
Definition ne_status (a : attribute) (status : ConditionBasedServiceStatus.t) : bool :=
  match a with
  | State s => bool_decide (s ≠ status)
  | _ => true
  end.
End ConditionBasedServiceReport.

(** The collaborators of a state: only the members that the module
    reads are kept. *)
Record ConnectedDriveAccount : Type := { server_url : string }.
Record ConnectedDriveVehicle : Type := { vin : string }.

Record VehicleState : Type := {
  _account : ConnectedDriveAccount;
  _vehicle : ConnectedDriveVehicle;
  _attributes : option (gmap string json)
    (* [None] until a status document is stored, then its mapping *)
}.

(** [VehicleState(account, vehicle)] *)
Definition __init__ (account : ConnectedDriveAccount) (vehicle : ConnectedDriveVehicle)
  : VehicleState :=
  {| _account := account; _vehicle := vehicle; _attributes := None |}.

(** The decorator: [func] returns [Some v], or [None] for Python's
    [None]. *)
Definition backend_parameter {A} (func : VehicleState → Py (option A))
    (self : VehicleState) : Py (option A) :=
  match _attributes self with
  | None => raise (ValueError "No data available!")
  | Some _ =>
      try_except (func self) is_KeyError
        (log ERROR "No data available!" [];; mret None)
  end.

(** [obj[key]] and [key in obj] where [obj] is the stored attributes or
    [None]. *)
Definition subscript (obj : option (gmap string json)) (key : string) : Py json :=
  match obj with
  | Some d => dict_getitem d key
  | None => raise TypeError
  end.

Definition member (key : string) (obj : option (gmap string json)) : Py bool :=
  match obj with
  | Some d => mret (bool_decide (is_Some (d !! key)))
  | None => raise TypeError
  end.

(** The raw value as Python sees it: JSON's [null] is [None]. *)
Definition raw (v : json) : option json :=
  match v with JNull => None | _ => Some v end.

Definition _parse_datetime `{Builtins} (date_str : json) : Py datetime :=
  let date_format := "%Y-%m-%dT%H:%M:%S%z" in
  strptime date_str date_format.

Definition attributes : VehicleState → Py (option (gmap string json)) :=
  backend_parameter (λ self, mret (_attributes self)).

Definition timestamp `{Builtins} : VehicleState → Py (option datetime) :=
  backend_parameter (λ self,
    v ← subscript (_attributes self) "updateTime";
    Some <$> _parse_datetime v).

Definition is_vehicle_tracking_enabled : VehicleState → Py (option bool) :=
  backend_parameter (λ self,
    pos ← subscript (_attributes self) "position";
    status ← getitem pos "status";
    mret (Some (eq_str status "OK"))).

Definition gps_position `{Builtins} : VehicleState → Py (option (float * float)) :=
  backend_parameter (λ self,
    pos ← subscript (_attributes self) "position";
    enabled ← is_vehicle_tracking_enabled self;
    if bool_decide (enabled = Some true) then
      v ← getitem pos "lat"; lat ← py_float v;
      v ← getitem pos "lon"; lon ← py_float v;
      mret (Some (lat, lon))
    else
      status ← getitem pos "status";
      log WARNING "Positioning status of %s is %s" [JStr (vin (_vehicle self)); status];;
      mret None).

Definition mileage `{Builtins} : VehicleState → Py (option float) :=
  backend_parameter (λ self,
    v ← subscript (_attributes self) "mileage";
    Some <$> py_float v).

Definition remaining_range_fuel `{Builtins} : VehicleState → Py (option float) :=
  backend_parameter (λ self,
    v ← subscript (_attributes self) "remainingRangeFuel";
    Some <$> py_float v).

Definition remaining_fuel `{Builtins} : VehicleState → Py (option float) :=
  backend_parameter (λ self,
    v ← subscript (_attributes self) "remainingFuel";
    Some <$> py_float v).

(** The loop of [lids] and of [windows] over the names still to be
    visited, [result] being the list built so far. *)
Fixpoint lids_loop (self : VehicleState) (names : list string) (result : list Lid.t)
  : Py (list Lid.t) :=
  match names with
  | lid :: names' =>
      present ← member lid (_attributes self);
      if present : bool then
        v ← subscript (_attributes self) lid;
        l ← Lid.__init__ lid v;
        lids_loop self names' (result ++ [l])
      else lids_loop self names' result
  | [] => mret result
  end.

Definition lids : VehicleState → Py (option (list Lid.t)) :=
  backend_parameter (λ self, Some <$> lids_loop self LIDS []).

(** [for x in obj] where [obj] is the value of a guarded accessor. *)
Definition for_in {A} (obj : option (list A)) : Py (list A) :=
  match obj with
  | Some l => mret l
  | None => raise TypeError
  end.

Definition open_lids (self : VehicleState) : Py (list Lid.t) :=
  l ← lids self;
  l ← for_in l;
  mret (List.filter (λ lid, negb (Lid.is_closed lid)) l).

Definition all_lids_closed (self : VehicleState) : Py bool :=
  l ← open_lids self;
  mret (Nat.eqb (length l) 0).

Definition windows : VehicleState → Py (option (list Window.t)) :=
  backend_parameter (λ self, Some <$> lids_loop self WINDOWS []).

Definition open_windows (self : VehicleState) : Py (list Window.t) :=
  l ← windows self;
  l ← for_in l;
  mret (List.filter (λ lid, negb (Window.is_closed lid)) l).

Definition all_windows_closed (self : VehicleState) : Py bool :=
  l ← open_windows self;
  mret (Nat.eqb (length l) 0).

Definition door_lock_state : VehicleState → Py (option LockState.t) :=
  backend_parameter (λ self,
    v ← subscript (_attributes self) "doorLockState";
    Some <$> LockState.call v).

Definition last_update_reason : VehicleState → Py (option json) :=
  backend_parameter (λ self,
    v ← subscript (_attributes self) "updateReason";
    mret (raw v)).

Definition condition_based_services `{Builtins}
  : VehicleState → Py (option (list ConditionBasedServiceReport.t)) :=
  backend_parameter (λ self,
    v ← subscript (_attributes self) "cbsData";
    l ← iterate v;
    Some <$> mapM ConditionBasedServiceReport.__init__ l).

(** The loop of [are_all_cbs_ok] over the reports still to be visited. *)
Fixpoint are_all_cbs_ok_loop (l : list ConditionBasedServiceReport.t) : Py bool :=
  match l with
  | cbs :: l' =>
      status ← ConditionBasedServiceReport.getattr cbs "status";
      if ConditionBasedServiceReport.ne_status status ConditionBasedServiceStatus.OK
      then mret false
      else are_all_cbs_ok_loop l'
  | [] => mret true
  end.

Definition are_all_cbs_ok `{Builtins} (self : VehicleState) : Py bool :=
  l ← condition_based_services self;
  l ← for_in l;
  are_all_cbs_ok_loop l.

Definition parking_lights : VehicleState → Py (option ParkingLightState.t) :=
  backend_parameter (λ self,
    attrs ← attributes self;
    v ← subscript attrs "parkingLight";
    Some <$> ParkingLightState.call v).

Definition are_parking_lights_on (self : VehicleState) : Py (option bool) :=
  lights ← parking_lights self;
  match lights with
  | None => mret None
  | Some l => mret (Some (bool_decide (l ≠ ParkingLightState.OFF)))
  end.

(** ** Refreshing the data *)

(** What [update_data] needs from outside the module: the template
    [VEHICLE_STATUS_URL], as the function that [format] makes of it
    from the server and the vin, and [send_request] of the account,
    whose response is kept as the outcome of [response.json()]. *)
Class Transport : Type := {
  VEHICLE_STATUS_URL : string → string → string;
  send_request : ConnectedDriveAccount → string → string → Py (Py json)
}.

(** What [self._attributes = attributes] leaves behind: a state of this
    development when [attributes] is a mapping or [None], and otherwise
    the value itself, which no accessor can read as a mapping. *)
Inductive assigned : Type :=
| Stored (self : VehicleState)
| NotAMapping (attributes : json).

Definition assign (self : VehicleState) (attributes : json) : assigned :=
  match attributes with
  | JObj d =>
      Stored {| _account := _account self; _vehicle := _vehicle self;
                _attributes := Some d |}
  | JNull =>
      Stored {| _account := _account self; _vehicle := _vehicle self;
                _attributes := None |}
  | _ => NotAMapping attributes
  end.

Definition update_data `{Transport} (self : VehicleState) : Py assigned :=
  log DEBUG "requesting new data from connected drive" [];;
  response ← send_request (_account self)
                (VEHICLE_STATUS_URL (server_url (_account self)) (vin (_vehicle self)))
                "status";
  document ← response;
  attributes ← getitem document "vehicleStatus";
  let self' := assign self attributes in
  log DEBUG "received new data from connected drive" [];;
  mret self'.

(** ** Running the model *)

(** The decimal digits of Unicode 14.0 (the characters of category
    Nd): each number is the code point of a zero, and the nine code
    points after it are the digits [1] to [9] of the same script.  The
    digits of ASCII come first. *)
Definition zeros : list N :=
  [48; 1632; 1776; 1984; 2406; 2534; 2662; 2790; 2918; 3046; 3174; 3302;
   3430; 3558; 3664; 3792; 3872; 4160; 4240; 6112; 6160; 6470; 6608; 6784;
   6800; 6992; 7088; 7232; 7248; 42528; 43216; 43264; 43472; 43504; 43600;
   44016; 65296; 66720; 68912; 69734; 69872; 69942; 70096; 70384; 70736;
   70864; 71248; 71360; 71472; 71904; 72016; 72784; 73040; 73120; 92768;
   92864; 93008; 120782; 120792; 120802; 120812; 120822; 123200; 123632;
   125264; 130032]%N.

Definition unicode_digit (c : N) : option Z :=
  (λ zero, Z.of_N (c - zero))
  <$> find (λ zero, (zero <=? c)%N && (c <? zero + 10)%N) zeros.

Definition digit_value (c : ascii) : option Z :=
  if in_range "0" "9" c then Some (Z.of_N (N_of_ascii c) - 48) else None.

Fixpoint decimal_from (acc : Z) (text : string) : Z :=
  match text with
  | EmptyString => acc
  | String c rest =>
      decimal_from (match digit_value c with Some v => 10 * acc + v | None => acc end) rest
  end.

Definition decimal (text : string) : Z := decimal_from 0 text.

(** Builtins that read plain decimal literals ([float("2201")],
    [int("2201")]) and refuse every other string, and that know the
    decimal digits of Unicode 14.0. *)
Definition plain_decimal (s : string) : option Z :=
  match s with
  | EmptyString => None
  | String _ _ =>
      if forallb (in_range "0" "9") (list_ascii_of_string s) then Some (decimal s) else None
  end.

#[export] Program Instance decimal_builtins : Builtins := {|
  str_to_float := λ s, plain_decimal s ≫= int_to_float;
  str_to_int := plain_decimal;
  decimal_value := unicode_digit
|}.
Next Obligation.
  intros c v. unfold unicode_digit.
  destruct (find _ zeros) as [zero|] eqn:Hfind; [|done].
  apply find_some in Hfind as [_ [?%N.leb_le ?%N.ltb_lt]%andb_true_iff].
  intros [= <-]. lia.
Qed.
Next Obligation.
  intros c Hc. unfold unicode_digit, zeros. cbn [find].
  repeat match goal with
  | |- context [((?zero <=? c)%N)] => rewrite (proj2 (N.leb_gt zero c)) by lia
  end.
  cbn [andb]. destruct (N.leb_spec 48 c); [|done].
  destruct (N.ltb_spec c (48 + 10)), (N.leb_spec c 57); try lia; [|done].
  cbn [andb fmap option_fmap option_map]. f_equal. lia.
Qed.

Definition account : ConnectedDriveAccount := {| server_url := "b2vapi.bmwgroup.com" |}.
Definition vehicle : ConnectedDriveVehicle := {| vin := "G31_NBTEvo_VIN" |}.

(** A state whose attributes are the mapping [d]. *)
Definition state_of (d : gmap string json) : VehicleState :=
  {| _account := account; _vehicle := vehicle; _attributes := Some d |}.

(** The error of a guarded accessor that has no data. *)
Definition no_data {A} : Py A := raise (ValueError "No data available!").

(** What the decorator logs when it turns a [KeyError] into [None]. *)
Definition no_data_record : LogRecord :=
  {| levelname := ERROR; msg := "No data available!"; args := [] |}.

(** The outcome of a guarded accessor that met a missing key: the
    record is logged and [None] is returned. *)
Definition absent {A} : Py (option A) := ([no_data_record], Return None).

(** The status document of the scenario of the specification. *)
Definition status_document : gmap string json :=
  list_to_map
    [("mileage", JInt 2201);
     ("updateTime", JStr "2018-02-17T12:15:36+0000");
     ("position",
      JObj (list_to_map [("lat", JFloat (-0x1.1333333333333p+5)%float);
                         ("lon", JFloat 0x1.9428f5c28f5c3p+4%float);
                         ("status", JStr "OK")]));
     ("remainingFuel", JInt 19);
     ("remainingRangeFuel", JInt 202)].

(** A document whose position may not be tracked. *)
Definition tracking_disabled_document : gmap string json :=
  list_to_map
    [("position",
      JObj (list_to_map [("lat", JFloat (-0x1.1333333333333p+5)%float);
                         ("lon", JFloat 0x1.9428f5c28f5c3p+4%float);
                         ("status", JStr "OK_DISABLED")]))].

(** A service list with one entry, whose state is [OK]. *)
Definition service_document : gmap string json :=
  list_to_map
    [("cbsData",
      JList [JObj (list_to_map [("cbsDueDate", JStr "2018-02");
                                ("cbsState", JStr "OK");
                                ("cbsType", JStr "OIL");
                                ("cbsDescription", JStr "Next oil change")])])].

(** The entry of a service list: a mapping with the four keys that a
    report needs. *)
Definition service_entry : gmap string json :=
  list_to_map [("cbsDueDate", JStr "2018-02");
               ("cbsState", JStr "OK");
               ("cbsType", JStr "OIL");
               ("cbsDescription", JStr "Next oil change")].

(** ** Vocabulary of the properties *)

Definition is_open (lid : Lid.t) : bool := negb (Lid.is_closed lid).

(** The lids built from the names that are present, when [f] gives the
    state of a name that is present and [None] for a name that is
    missing. *)
Definition lids_of (f : string → option LidState.t) (names : list string) : list Lid.t :=
  omap (λ n, (λ st, {| Lid.name := n; Lid.state := st |}) <$> f n) names.

(** A call that logs nothing, and returns or raises [ValueError]. *)
Definition quiet {A} (m : Py A) : Prop :=
  (∃ a, m = mret a) ∨ (∃ text, m = raise (ValueError text)).

(** The first day of a month, at midnight, without a zone. *)
Definition first_of_month (y m : Z) : datetime :=
  {| year := y; month := m; day := 1; hour := 0; minute := 0; second := 0;
     microsecond := 0; tzinfo := None |}.

(** What [_parse_date] logs when it gives up. *)
Definition unknown_format (s : string) : LogRecord :=
  {| levelname := ERROR; msg := "Unknown time format for CBS: %s"; args := [JStr s] |}.

(** The two formats of a due date, read off the specification: a year
    is four decimal digits, a month is one of the texts below. *)
Definition month_texts : list (string * Z) :=
  [("1", 1); ("2", 2); ("3", 3); ("4", 4); ("5", 5); ("6", 6); ("7", 7); ("8", 8);
   ("9", 9); ("01", 1); ("02", 2); ("03", 3); ("04", 4); ("05", 5); ("06", 6);
   ("07", 7); ("08", 8); ("09", 9); ("10", 10); ("11", 11); ("12", 12)].

Definition year_text `{Builtins} (ys : list N) (y : Z) : Prop :=
  ∃ a b c d va vb vc vd,
    ys = [a; b; c; d] ∧
    decimal_value a = Some va ∧ decimal_value b = Some vb ∧
    decimal_value c = Some vc ∧ decimal_value d = Some vd ∧
    y = 1000 * va + 100 * vb + 10 * vc + vd.

(** [YYYY-MM] *)
Definition year_month_text `{Builtins} (s : string) (y m : Z) : Prop :=
  ∃ ys ms, code_points s = ys ++ codes "-" ++ codes ms ∧
           year_text ys y ∧ (ms, m) ∈ month_texts.

(** [MM.YYYY] *)
Definition month_year_text `{Builtins} (s : string) (y m : Z) : Prop :=
  ∃ ys ms, code_points s = codes ms ++ codes "." ++ ys ∧
           year_text ys y ∧ (ms, m) ∈ month_texts.

(** The expressions that [pattern] builds for the two formats. *)
Definition year_re : regex :=
  Group "Y" (Cat digit (Cat digit (Cat digit digit))).

Definition month_re : regex :=
  Group "m" (Alt (Cat (Lit "1") (Range "0" "2"))
            (Alt (Cat (Lit "0") (Range "1" "9")) (Range "1" "9"))).

Definition year_month_re : regex := Cat year_re (Cat (Lit "-") (Cat month_re Empty)).

Definition month_year_re : regex := Cat month_re (Cat (Lit ".") (Cat year_re Empty)).

Definition four (a b c d : N) : list N := [a; b; c; d].

(** The texts of a month as the matcher reads them. *)
Definition month_codes : list (list N * Z) := (λ p, (codes p.1, p.2)) <$> month_texts.

(** One turn of the loop of [_parse_date]. *)
Definition attempt `{Builtins} (datestr : json) (date_format : string)
  : Py (option datetime) :=
  date ← strptime datestr date_format; Some <$> replace_day date 1.

(** Texts of ASCII characters: a text, the groups of a match, and the
    bytes of a JSON string. *)
Definition ascii_text (l : list N) : Prop := Forall (λ c, (c < 128)%N) l.

Definition ascii_found (f : found_dict) : Prop := Forall (λ p, ascii_text p.2) f.

Definition ascii_bytes (s : string) : bool :=
  forallb (λ b, (N_of_ascii b <? 128)%N) (list_ascii_of_string s).

(** The builtins [H] with the decimal digits of [decimal_builtins]. *)
Definition with_known_digits (H : Builtins) : Builtins := {|
  str_to_float := @str_to_float H;
  str_to_int := @str_to_int H;
  decimal_value := @decimal_value decimal_builtins;
  decimal_value_digit := @decimal_value_digit decimal_builtins;
  decimal_value_ascii := @decimal_value_ascii decimal_builtins
|}.

(** A value that is a text of ASCII characters, if it is a text; a
    computation that returns such a value, if it returns; a computation
    that returns entries with such due dates. *)
Definition ascii_json (v : json) : bool :=
  match v with JStr s => ascii_bytes s | _ => true end.

Definition ascii_result (m : Py json) : bool :=
  match result m with Return v => ascii_json v | Raise _ => true end.

Definition ascii_dates (m : Py (list json)) : bool :=
  match result m with
  | Return l => forallb (λ data, ascii_result (getitem data "cbsDueDate")) l
  | Raise _ => true
  end.

(** A date and a time that the constructors accept. *)
Definition valid_datetime (dt : datetime) : Prop :=
  1 ≤ year dt ≤ 9999 ∧ 1 ≤ month dt ≤ 12 ∧
  1 ≤ day dt ≤ days_in_month (year dt) (month dt) ∧
  0 ≤ hour dt ≤ 23 ∧ 0 ≤ minute dt ≤ 59 ∧ 0 ≤ second dt ≤ 59 ∧
  match tzinfo dt with
  | Some offset => -86400 < offset < 86400
  | None => True
  end.

(** What [gps_position] logs when the position may not be read. *)
Definition positioning_record (self : VehicleState) (status : json) : LogRecord :=
  {| levelname := WARNING; msg := "Positioning status of %s is %s";
     args := [JStr (vin (_vehicle self)); status] |}.

(** The two records of a refresh that went through. *)
Definition requesting_record : LogRecord :=
  {| levelname := DEBUG; msg := "requesting new data from connected drive"; args := [] |}.

Definition received_record : LogRecord :=
  {| levelname := DEBUG; msg := "received new data from connected drive"; args := [] |}.

(** A transport that answers every request with [document]. *)
Definition answering (document : json) : Transport := {|
  VEHICLE_STATUS_URL := λ server vin,
    "https://" +:+ server +:+ "/api/vehicle/dynamic/v1/" +:+ vin;
  send_request := λ _ _ _, mret (mret document)
|}.

(** A transport whose requests fail with [e]. *)
Definition failing (e : exn) : Transport := {|
  VEHICLE_STATUS_URL := λ server vin,
    "https://" +:+ server +:+ "/api/vehicle/dynamic/v1/" +:+ vin;
  send_request := λ _ _ _, raise e
|}.

(** * Properties *)

(** ** The computation type *)

Lemma bind_raise {A B} (k : A → Py B) l e : (l, Raise e) ≫= k = (l, Raise e).
Proof. reflexivity. Qed.

Lemma bind_return {A B} (k : A → Py B) l a :
  (l, Return a) ≫= k = (l ++ logged (k a), result (k a)).
Proof. unfold mbind, Py_bind, logged, result. by destruct (k a). Qed.

Lemma bind_mret {A B} (k : A → Py B) a : mret a ≫= k = k a.
Proof. unfold mret, Py_ret. rewrite bind_return. by destruct (k a). Qed.

Lemma bind_return_mret {A B} (f : A → B) l a :
  ((l, Return a) : Py A) ≫= (λ x, mret (f x)) = (l, Return (f a)).
Proof. rewrite bind_return. simpl. by rewrite app_nil_r. Qed.

Lemma fmap_return {A B} (f : A → B) l a :
  f <$> ((l, Return a) : Py A) = (l, Return (f a)).
Proof. reflexivity. Qed.

Lemma fmap_raise {A B} (f : A → B) l e : f <$> ((l, Raise e) : Py A) = (l, Raise e).
Proof. reflexivity. Qed.

(** ** Texts of ASCII characters

    On a text of ASCII characters the table of the decimal digits is
    fixed by [decimal_value_ascii], so that [strptime] does not depend
    on the rest of the table. *)

Lemma code_points_ascii (s : string) : ascii_bytes s = true → ascii_text (code_points s).
Proof.
  unfold ascii_bytes. induction s as [|b s IH]; [constructor|].
  cbn [list_ascii_of_string forallb]. intros [Hb Hs]%andb_true_iff.
  apply N.ltb_lt in Hb. unfold code_points. cbn [decode].
  destruct (N.ltb_spec (N_of_ascii b) 192) as [_|?]; [|lia].
  constructor; [done|]. by apply IH.
Qed.

Lemma rmatch_ascii `{H : Builtins} {A} (r : regex) :
  ∀ s found (k k' : list N → list N → found_dict → option A),
    ascii_text s → ascii_found found →
    (∀ c s' f, ascii_text c → ascii_text s' → ascii_found f → k c s' f = k' c s' f) →
    @rmatch H A r s found k = @rmatch decimal_builtins A r s found k'.
Proof.
  induction r as [|c|lo hi| |r1 IH1 r2 IH2|r1 IH1 r2 IH2|name r IH];
    intros s found k k' Hs Hfound Hk; cbn [rmatch].
  - apply Hk; [constructor|done..].
  - destruct s as [|x s']; [done|]. apply Forall_cons in Hs as [Hx Hs'].
    case_bool_decide; [|done]. apply Hk; [by repeat constructor|done..].
  - destruct s as [|x s']; [done|]. apply Forall_cons in Hs as [Hx Hs'].
    destruct (in_codes lo hi x); [|done]. apply Hk; [by repeat constructor|done..].
  - destruct s as [|x s']; [done|]. apply Forall_cons in Hs as [Hx Hs'].
    rewrite (@decimal_value_ascii H x Hx), (@decimal_value_ascii decimal_builtins x Hx).
    destruct (_ && _); [|done]. apply Hk; [by repeat constructor|done..].
  - apply IH1; [done..|]. intros c1 s1 f1 Hc1 Hs1 Hf1.
    apply IH2; [done..|]. intros c2 s2 f2 Hc2 Hs2 Hf2.
    apply Hk; [by apply Forall_app|done..].
  - rewrite (IH1 s found k k') by done. by rewrite (IH2 s found k k').
  - apply IH; [done..|]. intros c s' f Hc Hs' Hf. apply Hk; [done..|].
    by constructor.
Qed.

Lemma rmatch_found `{H : Builtins} {A} (P : A → Prop) (r : regex) :
  ∀ s found (k : list N → list N → found_dict → option A) a,
    ascii_text s → ascii_found found →
    (∀ c s' f a, ascii_text c → ascii_text s' → ascii_found f → k c s' f = Some a → P a) →
    rmatch r s found k = Some a → P a.
Proof.
  induction r as [|c|lo hi| |r1 IH1 r2 IH2|r1 IH1 r2 IH2|name r IH];
    intros s found k a Hs Hfound Hk; cbn [rmatch].
  - apply Hk; [constructor|done..].
  - destruct s as [|x s']; [done|]. apply Forall_cons in Hs as [Hx Hs'].
    case_bool_decide; [|done]. apply Hk; [by repeat constructor|done..].
  - destruct s as [|x s']; [done|]. apply Forall_cons in Hs as [Hx Hs'].
    destruct (in_codes lo hi x); [|done]. apply Hk; [by repeat constructor|done..].
  - destruct s as [|x s']; [done|]. apply Forall_cons in Hs as [Hx Hs'].
    destruct (decimal_value x); [|done]. apply Hk; [by repeat constructor|done..].
  - apply IH1; [done..|]. intros c1 s1 f1 a1 Hc1 Hs1 Hf1.
    apply IH2; [done..|]. intros c2 s2 f2 a2 Hc2 Hs2 Hf2.
    apply Hk; [by apply Forall_app|done..].
  - destruct (rmatch r1 s found k) as [a1|] eqn:H1.
    + intros [= <-]. by eapply IH1.
    + by apply IH2.
  - apply IH; [done..|]. intros c s' f a' Hc Hs' Hf. apply Hk; [done..|].
    by constructor.
Qed.

Lemma int_of_digits_ascii `{H : Builtins} (text : list N) :
  ascii_text text → @int_of_digits H text = @int_of_digits decimal_builtins text.
Proof.
  unfold int_of_digits. generalize 0. induction text as [|c text IH]; intros acc Htext; [done|].
  apply Forall_cons in Htext as [Hc Htext]. cbn [foldl].
  rewrite (@decimal_value_ascii H c Hc), (@decimal_value_ascii decimal_builtins c Hc).
  by apply IH.
Qed.

Lemma group_ascii (found : found_dict) (name : ascii) (text : list N) :
  ascii_found found → group found name = Some text → ascii_text text.
Proof.
  unfold group. intros Hfound.
  destruct (list_find _ found) as [[i [n t]]|] eqn:Hfind; [|done].
  intros [= <-]. apply list_find_Some in Hfind as (Hi & _).
  by apply (Forall_lookup_1 _ _ _ _ Hfound Hi).
Qed.

Lemma field_ascii `{H : Builtins} (found : found_dict) (name : ascii) (default : Z) :
  ascii_found found →
  from_option (@int_of_digits H) default (group found name)
  = from_option (@int_of_digits decimal_builtins) default (group found name).
Proof.
  intros Hfound. destruct (group found name) as [text|] eqn:Hgroup; [|done].
  apply int_of_digits_ascii. by eapply group_ascii.
Qed.

Lemma utcoffset_ascii `{H : Builtins} (z : list N) :
  ascii_text z → @utcoffset H z = @utcoffset decimal_builtins z.
Proof.
  intros Hz. unfold utcoffset.
  by rewrite (@int_of_digits_ascii H (take 2 (drop 1 z))),
    (@int_of_digits_ascii H (take 2 (drop 3 z))) by by apply Forall_take, Forall_drop.
Qed.

Lemma datetime_of_groups_ascii `{H : Builtins} (found : found_dict) :
  ascii_found found →
  @datetime_of_groups H found = @datetime_of_groups decimal_builtins found.
Proof.
  intros Hfound. unfold datetime_of_groups.
  rewrite (@field_ascii H found "Y"), (@field_ascii H found "m"),
    (@field_ascii H found "d"), (@field_ascii H found "H"),
    (@field_ascii H found "M"), (@field_ascii H found "S") by done.
  destruct (group found "z") as [z|] eqn:Hz; [|done].
  by rewrite (@utcoffset_ascii H z) by by eapply group_ascii.
Qed.

Lemma strptime_ascii `{H : Builtins} (s format : string) :
  ascii_bytes s = true →
  @strptime H (JStr s) format = @strptime decimal_builtins (JStr s) format.
Proof.
  intros Hs%code_points_ascii. unfold strptime.
  destruct (pattern format) as [re|]; [|done]. unfold re_match.
  rewrite (rmatch_ascii re (code_points s) [] _ (λ _ rest f, Some (f, rest)))
    by (done || constructor).
  destruct (rmatch _ _ _ _) as [[found rest]|] eqn:Hmatch; [|done].
  destruct rest; [|done]. apply datetime_of_groups_ascii.
  revert Hmatch. apply (rmatch_found (λ a, ascii_found a.1)); [done|constructor|].
  by intros c s' f a _ _ Hf [= <-].
Qed.

Lemma parse_date_loop_ascii `{H : Builtins} (formats : list string) (s : string) :
  ascii_bytes s = true →
  @ConditionBasedServiceReport._parse_date_loop H formats (JStr s)
  = @ConditionBasedServiceReport._parse_date_loop decimal_builtins formats (JStr s).
Proof.
  intros Hs. induction formats as [|f formats IH]; [done|].
  cbn [ConditionBasedServiceReport._parse_date_loop].
  by rewrite (strptime_ascii s f Hs), IH.
Qed.

Lemma parse_date_ascii `{H : Builtins} (s : string) :
  ascii_bytes s = true →
  @ConditionBasedServiceReport._parse_date H (JStr s)
  = @ConditionBasedServiceReport._parse_date decimal_builtins (JStr s).
Proof. apply parse_date_loop_ascii. Qed.

Lemma parse_datetime_ascii `{H : Builtins} (s : string) :
  ascii_bytes s = true →
  @_parse_datetime H (JStr s) = @_parse_datetime decimal_builtins (JStr s).
Proof. apply strptime_ascii. Qed.

Lemma bind_ext {A B} (m : Py A) (k k' : A → Py B) :
  (∀ l a, m = (l, Return a) → k a = k' a) → m ≫= k = m ≫= k'.
Proof.
  destruct m as [l [e|a]]; [done|]. intros Hk.
  by rewrite !bind_return, (Hk l a eq_refl).
Qed.

Lemma try_except_ext {A} (body body' : Py A) handles handler :
  body = body' → try_except body handles handler = try_except body' handles handler.
Proof. by intros ->. Qed.

Lemma parse_date_json `{H : Builtins} (v : json) :
  ascii_json v = true →
  @ConditionBasedServiceReport._parse_date H v
  = @ConditionBasedServiceReport._parse_date decimal_builtins v.
Proof. destruct v; try done. apply parse_date_ascii. Qed.

Lemma parse_datetime_json `{H : Builtins} (v : json) :
  ascii_json v = true → @_parse_datetime H v = @_parse_datetime decimal_builtins v.
Proof. destruct v; try done. apply parse_datetime_ascii. Qed.

Lemma init_ascii `{H : Builtins} (data : json) :
  ascii_result (getitem data "cbsDueDate") = true →
  @ConditionBasedServiceReport.__init__ H data
  = @ConditionBasedServiceReport.__init__ (with_known_digits H) data.
Proof.
  intros Hdata. unfold ConditionBasedServiceReport.__init__.
  apply bind_ext. intros l v Hv. rewrite Hv in Hdata.
  by rewrite (@parse_date_json H v), (@parse_date_json (with_known_digits H) v).
Qed.

Lemma mapM_init_ascii `{H : Builtins} (l : list json) :
  forallb (λ data, ascii_result (getitem data "cbsDueDate")) l = true →
  mapM (@ConditionBasedServiceReport.__init__ H) l
  = mapM (@ConditionBasedServiceReport.__init__ (with_known_digits H)) l.
Proof.
  induction l as [|data l IH]; [done|]. cbn [forallb mapM].
  intros [Hdata Hl]%andb_true_iff. by rewrite (init_ascii data Hdata), IH.
Qed.

Lemma condition_based_services_ascii `{H : Builtins} (self : VehicleState) :
  ascii_dates (subscript (_attributes self) "cbsData" ≫= iterate) = true →
  @condition_based_services H self
  = @condition_based_services (with_known_digits H) self.
Proof.
  intros Hself. unfold condition_based_services, backend_parameter.
  destruct (_attributes self) as [d|]; [|done]. apply try_except_ext.
  apply bind_ext. intros l1 v Hv. apply bind_ext. intros l2 l Hl.
  rewrite Hv, bind_return, Hl in Hself. by rewrite mapM_init_ascii.
Qed.

Lemma are_all_cbs_ok_ascii `{H : Builtins} (self : VehicleState) :
  ascii_dates (subscript (_attributes self) "cbsData" ≫= iterate) = true →
  @are_all_cbs_ok H self = @are_all_cbs_ok (with_known_digits H) self.
Proof. intros Hself. unfold are_all_cbs_ok. by rewrite condition_based_services_ascii. Qed.

Lemma timestamp_ascii `{H : Builtins} (self : VehicleState) :
  ascii_result (subscript (_attributes self) "updateTime") = true →
  @timestamp H self = @timestamp (with_known_digits H) self.
Proof.
  intros Hself. unfold timestamp, backend_parameter.
  destruct (_attributes self) as [d|]; [|done]. apply try_except_ext.
  apply bind_ext. intros l v Hv. unfold ascii_result in Hself. rewrite Hv in Hself.
  by rewrite (@parse_datetime_json H v), (@parse_datetime_json (with_known_digits H) v).
Qed.

(** ** The decorator *)

Section decorator.
Context {A : Type} (func : VehicleState → Py (option A)) (self : VehicleState).

Lemma backend_parameter_no_data :
  _attributes self = None → backend_parameter func self = no_data.
Proof. unfold backend_parameter. by intros ->. Qed.

Lemma backend_parameter_KeyError d l key :
  _attributes self = Some d → func self = (l, Raise (KeyError key)) →
  backend_parameter func self = (l ++ [no_data_record], Return None).
Proof. unfold backend_parameter. by intros -> ->. Qed.

Lemma backend_parameter_return d l v :
  _attributes self = Some d → func self = (l, Return v) →
  backend_parameter func self = (l, Return v).
Proof. unfold backend_parameter. by intros -> ->. Qed.

Lemma backend_parameter_raise d l e :
  _attributes self = Some d → func self = (l, Raise e) → is_KeyError e = false →
  backend_parameter func self = (l, Raise e).
Proof. unfold backend_parameter, try_except. by intros -> -> ->. Qed.
End decorator.

(** An accessor that begins by reading [key] from the attributes. *)
Lemma backend_parameter_missing {A} key (k : VehicleState → json → Py (option A)) self d :
  _attributes self = Some d → d !! key = None →
  backend_parameter (λ self, v ← subscript (_attributes self) key; k self v) self = absent.
Proof.
  intros Hd Hkey. eapply backend_parameter_KeyError with (l := []); [done|].
  rewrite Hd. unfold subscript, dict_getitem. by rewrite Hkey.
Qed.

Lemma parking_lights_missing self d :
  _attributes self = Some d → d !! "parkingLight" = None → parking_lights self = absent.
Proof.
  intros Hd Hkey. unfold parking_lights.
  eapply backend_parameter_KeyError with (l := []); [done|].
  unfold attributes. erewrite backend_parameter_return by done.
  rewrite Hd, bind_return. simpl. unfold dict_getitem. by rewrite Hkey.
Qed.

(** ** Accessors of a state without data *)

(** C1: every guarded accessor of a state whose attributes are [None]
    (no refresh has stored a document) raises the no-data
    [ValueError], and logs nothing. *)
Theorem guarded_accessors_no_data `{Builtins} (self : VehicleState) :
  _attributes self = None →
  attributes self = no_data ∧
  timestamp self = no_data ∧
  gps_position self = no_data ∧
  is_vehicle_tracking_enabled self = no_data ∧
  mileage self = no_data ∧
  remaining_range_fuel self = no_data ∧
  remaining_fuel self = no_data ∧
  lids self = no_data ∧
  windows self = no_data ∧
  door_lock_state self = no_data ∧
  last_update_reason self = no_data ∧
  condition_based_services self = no_data ∧
  parking_lights self = no_data.
Proof.
  intros Hnone. repeat split; by apply backend_parameter_no_data.
Qed.

Lemma guarded_accessors_no_data_witness :
  _attributes (__init__ account vehicle) = None ∧
  result (mileage (__init__ account vehicle)) = Raise (ValueError "No data available!").
Proof.
  split; [reflexivity|].
  pose proof (guarded_accessors_no_data (__init__ account vehicle) eq_refl) as Hall.
  destruct Hall as (_ & _ & _ & _ & -> & _). reflexivity.
Defined.

(** C10: the derived properties have no guard of their own, yet on a
    state whose attributes are [None] each of them raises the no-data
    [ValueError], which comes from the guarded accessor it reads. *)
Theorem derived_properties_no_data `{Builtins} (self : VehicleState) :
  _attributes self = None →
  open_lids self = no_data ∧
  all_lids_closed self = no_data ∧
  open_windows self = no_data ∧
  all_windows_closed self = no_data ∧
  are_all_cbs_ok self = no_data ∧
  are_parking_lights_on self = no_data.
Proof.
  intros Hnone.
  unfold open_lids, all_lids_closed, open_lids, open_windows, all_windows_closed,
    open_windows, are_all_cbs_ok, are_parking_lights_on.
  unfold lids, windows, condition_based_services, parking_lights.
  rewrite !backend_parameter_no_data by done.
  repeat split; reflexivity.
Qed.

Lemma derived_properties_no_data_witness :
  _attributes (__init__ account vehicle) = None ∧
  result (are_all_cbs_ok (__init__ account vehicle)) = Raise (ValueError "No data available!").
Proof.
  split; [reflexivity|].
  pose proof (derived_properties_no_data (__init__ account vehicle) eq_refl) as Hall.
  destruct Hall as (_ & _ & _ & _ & -> & _). reflexivity.
Defined.

(** ** Enumerations *)

Lemma enum_call_invalid {E} cls (members : list (string * E)) s :
  s ∉ members.*1 →
  enum_call cls members (JStr s) = raise (ValueError ("is not a valid " +:+ cls)).
Proof.
  intros Hs. unfold enum_call.
  destruct (list_find _ members) as [[i [s' e]]|] eqn:Hfind; [|done].
  apply list_find_Some in Hfind as (Hi & Heq & _). simpl in Heq. subst s'.
  destruct Hs. apply list_elem_of_fmap. exists (s, e). split; [done|].
  by eapply list_elem_of_lookup_2.
Qed.

Lemma enum_call_not_str {E} cls (members : list (string * E)) v :
  (∀ s, v ≠ JStr s) →
  enum_call cls members v = raise (ValueError ("is not a valid " +:+ cls)).
Proof. intros Hv. destruct v; try done. by destruct (Hv s). Qed.

(** ** The empty mapping *)

(** C3: on a state whose attributes are the empty mapping, [mileage]
    does not raise: the [KeyError] of the lookup is caught, a record is
    logged and the accessor returns [None]; only a state whose
    attributes were never set raises the no-data [ValueError]. *)
Theorem mileage_empty_mapping `{Builtins} :
  mileage (state_of ∅) = ([no_data_record], Return None) ∧
  mileage (__init__ account vehicle) = no_data ∧
  result (mileage (state_of ∅)) ≠ result (mileage (__init__ account vehicle)).
Proof. repeat split. discriminate. Qed.

(** ** Condition based services *)

(** C8: [are_all_cbs_ok] returns [True] on an empty list of reports,
    and on a list with at least one report it raises [AttributeError],
    whatever the states of the reports: it reads the attribute [status],
    and a report has the attribute [state] and no attribute [status]. *)
Theorem are_all_cbs_ok_reads_status `{Builtins} :
  are_all_cbs_ok_loop [] = mret true ∧
  (∀ cbs l, are_all_cbs_ok_loop (cbs :: l) = raise (AttributeError "status")) ∧
  (∃ cbs, condition_based_services (state_of service_document) = mret (Some [cbs]) ∧
          ConditionBasedServiceReport.state cbs = ConditionBasedServiceStatus.OK) ∧
  are_all_cbs_ok (state_of service_document) = raise (AttributeError "status") ∧
  are_all_cbs_ok (state_of {[ "cbsData" := JList [] ]}) = mret true.
Proof.
  split; [done|]. split; [done|]. split; [|split].
  - eexists. split.
    + rewrite condition_based_services_ascii by done. vm_compute. reflexivity.
    + reflexivity.
  - rewrite are_all_cbs_ok_ascii by done. vm_compute. reflexivity.
  - vm_compute. reflexivity.
Qed.

(** ** Lock state and parking lights *)

(** C6: when the attributes are present and the value of
    [doorLockState] (of [parkingLight]) is a string that is not one of
    the literals of [LockState] (of [ParkingLightState]),
    [door_lock_state] (resp. [parking_lights]) raises a [ValueError],
    which the decorator lets through: nothing is logged and no value is
    returned. *)
Theorem invalid_literal_raises (self : VehicleState) (d : gmap string json) :
  _attributes self = Some d →
  (∀ s, d !! "doorLockState" = Some (JStr s) →
        s ∉ ["LOCKED"; "SECURED"; "SELECTIVELOCKED"; "UNLOCKED"] →
        door_lock_state self = raise (ValueError "is not a valid LockState")) ∧
  (∀ s, d !! "parkingLight" = Some (JStr s) →
        s ∉ ["LEFT"; "RIGHT"; "OFF"] →
        parking_lights self = raise (ValueError "is not a valid ParkingLightState")).
Proof.
  intros Hd. split; intros s Hs Hout.
  - unfold door_lock_state. eapply backend_parameter_raise; [done| |done].
    rewrite Hd. unfold subscript, dict_getitem. rewrite Hs, bind_mret.
    unfold LockState.call. by rewrite enum_call_invalid.
  - unfold parking_lights. eapply backend_parameter_raise; [done| |done].
    unfold attributes. erewrite backend_parameter_return by done.
    rewrite Hd, bind_return. simpl. unfold dict_getitem. rewrite Hs, bind_mret.
    unfold ParkingLightState.call. by rewrite enum_call_invalid.
Qed.

Lemma invalid_literal_raises_witness :
  result (door_lock_state (state_of {[ "doorLockState" := JStr "locked" ]}))
    = Raise (ValueError "is not a valid LockState") ∧
  result (parking_lights (state_of {[ "parkingLight" := JStr "ON" ]}))
    = Raise (ValueError "is not a valid ParkingLightState").
Proof.
  split.
  - pose proof (invalid_literal_raises
      (state_of {[ "doorLockState" := JStr "locked" ]}) _ eq_refl) as [Hlock _].
    rewrite (Hlock "locked"); [reflexivity|reflexivity|].
    intros Hin. repeat (apply elem_of_cons in Hin as [Hin|Hin]; [discriminate|]).
    by apply elem_of_nil in Hin.
  - pose proof (invalid_literal_raises
      (state_of {[ "parkingLight" := JStr "ON" ]}) _ eq_refl) as [_ Hlight].
    rewrite (Hlight "ON"); [reflexivity|reflexivity|].
    intros Hin. repeat (apply elem_of_cons in Hin as [Hin|Hin]; [discriminate|]).
    by apply elem_of_nil in Hin.
Defined.

(** C9: [are_parking_lights_on] returns [None] when [parking_lights]
    returns [None], as it does when the key [parkingLight] is missing;
    when [parking_lights] returns a state, it returns whether that
    state differs from [OFF]. *)
Theorem are_parking_lights_on_spec (self : VehicleState) :
  (∀ l, parking_lights self = (l, Return None) →
        are_parking_lights_on self = (l, Return None)) ∧
  (∀ l p, parking_lights self = (l, Return (Some p)) →
        ∃ b, are_parking_lights_on self = (l, Return (Some b)) ∧
             (b = true ↔ p ≠ ParkingLightState.OFF)) ∧
  (∀ d, _attributes self = Some d → d !! "parkingLight" = None →
        parking_lights self = ([no_data_record], Return None) ∧
        are_parking_lights_on self = ([no_data_record], Return None)) ∧
  (∀ d p, _attributes self = Some d →
        d !! "parkingLight" = Some (JStr (ParkingLightState.value p)) →
        are_parking_lights_on self = mret (Some (bool_decide (p ≠ ParkingLightState.OFF)))).
Proof.
  assert (Hnone : ∀ l, parking_lights self = (l, Return None) →
                       are_parking_lights_on self = (l, Return None)).
  { intros l Hl. unfold are_parking_lights_on. rewrite Hl, bind_return. simpl.
    by rewrite app_nil_r. }
  assert (Hsome : ∀ l p, parking_lights self = (l, Return (Some p)) →
            are_parking_lights_on self
            = (l, Return (Some (bool_decide (p ≠ ParkingLightState.OFF))))).
  { intros l p Hl. unfold are_parking_lights_on. rewrite Hl, bind_return. simpl.
    by rewrite app_nil_r. }
  split; [done|]. split; [|split].
  - intros l p Hl. eexists. split; [by apply Hsome|]. by rewrite bool_decide_eq_true.
  - intros d Hd Hkey.
    pose proof (parking_lights_missing self d Hd Hkey) as Hl. by auto.
  - intros d p Hd Hkey. apply Hsome.
    unfold parking_lights. eapply backend_parameter_return; [done|].
    unfold attributes. erewrite backend_parameter_return by done.
    rewrite Hd, bind_return. simpl. unfold dict_getitem. rewrite Hkey, bind_mret.
    by destruct p.
Qed.

Lemma are_parking_lights_on_spec_witness :
  are_parking_lights_on (state_of ∅) = ([no_data_record], Return None) ∧
  are_parking_lights_on (state_of {[ "parkingLight" := JStr "LEFT" ]}) = mret (Some true) ∧
  are_parking_lights_on (state_of {[ "parkingLight" := JStr "OFF" ]}) = mret (Some false).
Proof.
  split; [|split].
  - pose proof (are_parking_lights_on_spec (state_of ∅)) as (Hnone & _).
    apply Hnone. reflexivity.
  - pose proof (are_parking_lights_on_spec
      (state_of {[ "parkingLight" := JStr "LEFT" ]})) as (_ & _ & _ & Hlit).
    apply (Hlit _ ParkingLightState.LEFT eq_refl). reflexivity.
  - pose proof (are_parking_lights_on_spec
      (state_of {[ "parkingLight" := JStr "OFF" ]})) as (_ & _ & _ & Hlit).
    apply (Hlit _ ParkingLightState.OFF eq_refl). reflexivity.
Defined.

(** ** Lids and windows *)

Lemma LidState_call_value x : LidState.call (JStr (LidState.value x)) = mret x.
Proof. by destruct x. Qed.

Lemma lids_loop_present self d f names result :
  _attributes self = Some d →
  (∀ n, n ∈ names → d !! n = (λ st, JStr (LidState.value st)) <$> f n) →
  lids_loop self names result = mret (result ++ lids_of f names).
Proof.
  intros Hd. revert result.
  induction names as [|n names IH]; intros result Hnames; simpl.
  - by rewrite app_nil_r.
  - rewrite Hd. unfold member, subscript, dict_getitem. rewrite bind_mret.
    pose proof (Hnames n (list_elem_of_here _ _)) as Hn.
    unfold lids_of. cbn [omap list_omap]. fold (lids_of f names).
    destruct (f n) as [st|]; cbn [fmap option_fmap option_map] in *; rewrite Hn.
    + rewrite bool_decide_eq_true_2 by eauto.
      rewrite bind_mret. unfold Lid.__init__.
      rewrite LidState_call_value, !bind_mret.
      rewrite IH by (intros; apply Hnames; by apply list_elem_of_further).
      by rewrite <- app_assoc.
    + rewrite bool_decide_eq_false_2 by (by intros [? ?]).
      apply IH. intros; apply Hnames; by apply list_elem_of_further.
Qed.

Lemma lids_present names self d f :
  _attributes self = Some d →
  (∀ n, n ∈ names → d !! n = (λ st, JStr (LidState.value st)) <$> f n) →
  backend_parameter (λ self, Some <$> lids_loop self names []) self
  = mret (Some (lids_of f names)).
Proof.
  intros Hd Hnames. eapply backend_parameter_return; [done|].
  by erewrite lids_loop_present.
Qed.

Lemma closed_when_none_open (open : VehicleState → Py (list Lid.t))
    (closed : VehicleState → Py bool) (self : VehicleState) :
  closed self = (l ← open self; mret (Nat.eqb (length l) 0)) →
  result (closed self) = Return true ↔ result (open self) = Return [].
Proof.
  intros ->. destruct (open self) as [logs [e|l]]; simpl; [done|].
  destruct l; simpl; split; congruence.
Qed.

Lemma forallb_closed_filter (l : list Lid.t) :
  Nat.eqb (length (List.filter is_open l)) 0 = forallb Lid.is_closed l.
Proof.
  induction l as [|x l IH]; [done|]. simpl. unfold is_open at 1.
  by destruct (Lid.is_closed x).
Qed.

(** C7: [all_lids_closed] is true exactly when [open_lids] is the empty
    list, and [open_lids] is the sublist of [lids] whose state is not
    [CLOSED]; when the six lids have the states [f], whatever [f] is,
    [all_lids_closed] returns whether all of them are [CLOSED].  The
    same holds of [all_windows_closed], [open_windows] and [windows]. *)
Theorem all_closed_iff_none_open (self : VehicleState) :
  (result (all_lids_closed self) = Return true ↔ result (open_lids self) = Return []) ∧
  (result (all_windows_closed self) = Return true ↔
   result (open_windows self) = Return []) ∧
  (∀ logs l, lids self = (logs, Return (Some l)) →
     open_lids self = (logs, Return (List.filter (λ lid, negb (Lid.is_closed lid)) l))) ∧
  (∀ logs l, windows self = (logs, Return (Some l)) →
     open_windows self
     = (logs, Return (List.filter (λ lid, negb (Window.is_closed lid)) l))) ∧
  (∀ d f, _attributes self = Some d →
     (∀ n, n ∈ LIDS → d !! n = Some (JStr (LidState.value (f n)))) →
     lids self = mret (Some (lids_of (Some ∘ f) LIDS)) ∧
     all_lids_closed self
     = mret (forallb (λ n, bool_decide (f n = LidState.CLOSED)) LIDS)) ∧
  (∀ d f, _attributes self = Some d →
     (∀ n, n ∈ WINDOWS → d !! n = Some (JStr (LidState.value (f n)))) →
     windows self = mret (Some (lids_of (Some ∘ f) WINDOWS)) ∧
     all_windows_closed self
     = mret (forallb (λ n, bool_decide (f n = LidState.CLOSED)) WINDOWS)).
Proof.
  assert (Hfilter : ∀ (acc : VehicleState → Py (option (list Lid.t))) logs l,
            acc self = (logs, Return (Some l)) →
            (l ← acc self; l ← for_in l; mret (List.filter is_open l))
            = (logs, Return (List.filter is_open l))).
  { intros acc logs l ->. rewrite bind_return. simpl. by rewrite app_nil_r. }
  assert (Hall : ∀ names d f, _attributes self = Some d →
            (∀ n, n ∈ names → d !! n = Some (JStr (LidState.value (f n)))) →
            backend_parameter (λ self, Some <$> lids_loop self names []) self
            = mret (Some (lids_of (Some ∘ f) names))).
  { intros names d f Hd Hnames. by apply lids_present with (d := d). }
  split; [by apply closed_when_none_open|].
  split; [by apply closed_when_none_open|].
  split; [by apply Hfilter|]. split; [by apply Hfilter|].
  split; intros d f Hd Hnames.
  - pose proof (Hall LIDS d f Hd Hnames) as Hlids. split; [done|].
    unfold all_lids_closed, open_lids. fold is_open.
    rewrite (Hfilter lids [] _ Hlids), bind_return_mret.
    by rewrite forallb_closed_filter.
  - pose proof (Hall WINDOWS d f Hd Hnames) as Hwindows. split; [done|].
    unfold all_windows_closed, open_windows. change Window.is_closed with Lid.is_closed.
    fold is_open. rewrite (Hfilter windows [] _ Hwindows), bind_return_mret.
    by rewrite forallb_closed_filter.
Qed.

Lemma all_closed_iff_none_open_witness :
  all_lids_closed (state_of (list_to_map ((λ n, (n, JStr "CLOSED")) <$> LIDS))) = mret true ∧
  all_windows_closed
    (state_of (list_to_map ((λ n, (n, JStr (if bool_decide (n = "windowDriverRear")
                                            then "OPEN" else "CLOSED"))) <$> WINDOWS)))
  = mret false.
Proof.
  split.
  - pose proof (all_closed_iff_none_open
      (state_of (list_to_map ((λ n, (n, JStr "CLOSED")) <$> LIDS))))
      as (_ & _ & _ & _ & Hlids & _).
    destruct (Hlids _ (λ _, LidState.CLOSED) eq_refl) as [_ Hall]; [|by rewrite Hall].
    intros n Hn.
    repeat (apply elem_of_cons in Hn as [->|Hn]; [reflexivity|]).
    by apply elem_of_nil in Hn.
  - pose proof (all_closed_iff_none_open
      (state_of (list_to_map ((λ n, (n, JStr (if bool_decide (n = "windowDriverRear")
                                              then "OPEN" else "CLOSED"))) <$> WINDOWS))))
      as (_ & _ & _ & _ & _ & Hwindows).
    destruct (Hwindows _ (λ n, if bool_decide (n = "windowDriverRear")
                               then LidState.OPEN else LidState.CLOSED) eq_refl)
      as [_ Hall]; [|by rewrite Hall].
    intros n Hn.
    repeat (apply elem_of_cons in Hn as [->|Hn]; [reflexivity|]).
    by apply elem_of_nil in Hn.
Defined.

(** ** Position *)

Lemma eq_str_true v s : eq_str v s = true ↔ v = JStr s.
Proof.
  destruct v; simpl; try (split; [discriminate|congruence]).
  rewrite bool_decide_eq_true. split; congruence.
Qed.

Lemma is_vehicle_tracking_enabled_eval self d p :
  _attributes self = Some d → d !! "position" = Some (JObj p) →
  is_vehicle_tracking_enabled self
  = match p !! "status" with
    | Some status => mret (Some (eq_str status "OK"))
    | None => ([no_data_record], Return None)
    end.
Proof.
  intros Hd Hpos. unfold is_vehicle_tracking_enabled.
  destruct (p !! "status") as [status|] eqn:Hstatus.
  - eapply backend_parameter_return; [done|].
    rewrite Hd. unfold subscript, dict_getitem. rewrite Hpos, bind_mret.
    unfold getitem, dict_getitem. by rewrite Hstatus, bind_mret.
  - eapply backend_parameter_KeyError with (l := []); [done|].
    rewrite Hd. unfold subscript, dict_getitem. rewrite Hpos, bind_mret.
    unfold getitem, dict_getitem. by rewrite Hstatus.
Qed.

(** C5: when the attributes are present and hold a position object,
    [is_vehicle_tracking_enabled] is true exactly when the status of the
    position is the string ["OK"]; with that status [gps_position]
    returns the pair of [float(lat)] and [float(lon)]; with any other
    status, or none, it returns [None]. *)
Theorem tracking_and_position `{Builtins} (self : VehicleState) (d p : gmap string json) :
  _attributes self = Some d →
  d !! "position" = Some (JObj p) →
  (result (is_vehicle_tracking_enabled self) = Return (Some true) ↔
   p !! "status" = Some (JStr "OK")) ∧
  (p !! "status" = Some (JStr "OK") →
   ∀ vlat vlon lat lon,
     p !! "lat" = Some vlat → p !! "lon" = Some vlon →
     py_float vlat = mret lat → py_float vlon = mret lon →
     gps_position self = mret (Some (lat, lon))) ∧
  (p !! "status" ≠ Some (JStr "OK") → result (gps_position self) = Return None).
Proof.
  intros Hd Hpos.
  pose proof (is_vehicle_tracking_enabled_eval self d p Hd Hpos) as Henabled.
  split; [|split].
  - rewrite Henabled. destruct (p !! "status") as [status|]; simpl; [|done].
    split.
    + intros [= Heq]. by apply eq_str_true in Heq as ->.
    + intros [= ->]. done.
  - intros Hstatus vlat vlon lat lon Hlat Hlon Hflat Hflon.
    unfold gps_position. eapply backend_parameter_return; [done|].
    rewrite Hd. unfold subscript at 1, dict_getitem. rewrite Hpos, bind_mret.
    rewrite Henabled, Hstatus, bind_mret. simpl eq_str.
    rewrite bool_decide_eq_true_2 by done.
    unfold getitem, dict_getitem.
    by rewrite Hlat, bind_mret, Hflat, bind_mret, Hlon, bind_mret, Hflon, bind_mret.
  - intros Hstatus. unfold gps_position.
    destruct (p !! "status") as [status|] eqn:Hst.
    + erewrite backend_parameter_return; [done|done|].
      rewrite Hd. unfold subscript at 1, dict_getitem. rewrite Hpos, bind_mret.
      rewrite Henabled, bind_mret.
      rewrite bool_decide_eq_false_2.
      2:{ intros [= Heq]. apply eq_str_true in Heq. congruence. }
      unfold getitem, dict_getitem. rewrite Hst, bind_mret. reflexivity.
    + erewrite backend_parameter_KeyError; [done|done|].
      rewrite Hd. unfold subscript at 1, dict_getitem. rewrite Hpos, bind_mret.
      rewrite Henabled, bind_return. simpl.
      unfold getitem, dict_getitem. rewrite Hst. reflexivity.
Qed.

Lemma tracking_and_position_witness :
  result (is_vehicle_tracking_enabled (state_of status_document)) = Return (Some true) ∧
  gps_position (state_of status_document)
  = mret (Some ((-0x1.1333333333333p+5)%float, 0x1.9428f5c28f5c3p+4%float)) ∧
  result (gps_position (state_of tracking_disabled_document)) = Return None.
Proof.
  split; [|split].
  - eapply (tracking_and_position (state_of status_document)); reflexivity.
  - eapply (tracking_and_position (state_of status_document)); reflexivity.
  - eapply (tracking_and_position (state_of tracking_disabled_document));
      [reflexivity|reflexivity|discriminate].
Defined.

(** ** Due dates *)

Lemma datetime_new_first y m :
  1 ≤ y ≤ 9999 → 1 ≤ m ≤ 12 →
  datetime_new y m 1 0 0 0 0 None = mret (first_of_month y m).
Proof.
  intros Hy Hm. unfold datetime_new, between.
  assert (1 ≤ days_in_month y m).
  { unfold days_in_month. repeat case_match; lia. }
  repeat (rewrite (proj2 (Z.leb_le _ _)) by lia). simpl. reflexivity.
Qed.

Lemma month_text_range ms m : (ms, m) ∈ month_texts → 1 ≤ m ≤ 12.
Proof.
  unfold month_texts. intros Hm.
  repeat (apply elem_of_cons in Hm as [[= -> ->]|Hm]; [lia|]).
  by apply elem_of_nil in Hm.
Qed.

Lemma month_codes_texts mc m :
  (mc, m) ∈ month_codes → ∃ ms, mc = codes ms ∧ (ms, m) ∈ month_texts.
Proof.
  unfold month_codes. intros ([ms m'] & [= -> ->] & Hms)%list_elem_of_fmap.
  by exists ms.
Qed.

(** Evaluate the tests of the matcher that are decided. *)
Ltac decide_tests :=
  repeat match goal with
  | |- context [bool_decide (casefold ?x = casefold ?c)] =>
      let b := eval vm_compute in (bool_decide (casefold x = casefold c)) in
      change (bool_decide (casefold x = casefold c)) with b
  | |- context [in_codes ?lo ?hi ?x] =>
      let b := eval vm_compute in (in_codes lo hi x) in
      change (in_codes lo hi x) with b
  end.

Ltac in_table := repeat first [apply list_elem_of_here | apply list_elem_of_further].

Lemma pattern_year_month : pattern "%Y-%m" = Some year_month_re.
Proof. reflexivity. Qed.

Lemma pattern_month_year : pattern "%m.%Y" = Some month_year_re.
Proof. reflexivity. Qed.

Lemma re_match_year_month `{Builtins} a b c d va vb vc vd ms m :
  decimal_value a = Some va → decimal_value b = Some vb →
  decimal_value c = Some vc → decimal_value d = Some vd →
  (ms, m) ∈ month_texts →
  re_match year_month_re (four a b c d ++ codes "-" ++ codes ms)
  = Some ([("m"%char, codes ms); ("Y"%char, four a b c d)], []).
Proof.
  intros Ha Hb Hc Hd Hms. unfold month_texts in Hms.
  unfold re_match, year_month_re, year_re, month_re, digit, four.
  repeat (apply elem_of_cons in Hms as [[= -> ->]|Hms]; [
    cbv [rmatch app codes fmap list_fmap list_ascii_of_string];
    rewrite Ha, Hb, Hc, Hd; decide_tests; reflexivity|]).
  by apply elem_of_nil in Hms.
Qed.

Lemma re_match_month_year `{Builtins} a b c d va vb vc vd ms m :
  decimal_value a = Some va → decimal_value b = Some vb →
  decimal_value c = Some vc → decimal_value d = Some vd →
  (ms, m) ∈ month_texts →
  re_match month_year_re (codes ms ++ codes "." ++ four a b c d)
  = Some ([("Y"%char, four a b c d); ("m"%char, codes ms)], []).
Proof.
  intros Ha Hb Hc Hd Hms. unfold month_texts in Hms.
  unfold re_match, month_year_re, year_re, month_re, digit, four.
  repeat (apply elem_of_cons in Hms as [[= -> ->]|Hms]; [
    cbv [rmatch app codes fmap list_fmap list_ascii_of_string];
    rewrite ?Ha, ?Hb, ?Hc, ?Hd; decide_tests; reflexivity|]).
  by apply elem_of_nil in Hms.
Qed.

Lemma lit_code (x : N) (c : ascii) :
  (N_of_ascii c < 65)%N →
  bool_decide (casefold x = casefold (N_of_ascii c)) = true → x = N_of_ascii c.
Proof.
  intros Hc Hx%bool_decide_eq_true. revert Hx. unfold casefold.
  repeat match goal with
  | |- context [((?a <=? ?b)%N)] => destruct (N.leb_spec a b)
  end; cbn [andb]; lia.
Qed.

Lemma lit_dash x :
  bool_decide (casefold x = casefold (N_of_ascii "-")) = true → x = 45%N.
Proof. by apply (lit_code x "-"). Qed.

Lemma lit_dot x :
  bool_decide (casefold x = casefold (N_of_ascii ".")) = true → x = 46%N.
Proof. by apply (lit_code x "."). Qed.

Lemma lit_0 x :
  bool_decide (casefold x = casefold (N_of_ascii "0")) = true → x = 48%N.
Proof. by apply (lit_code x "0"). Qed.

Lemma lit_1 x :
  bool_decide (casefold x = casefold (N_of_ascii "1")) = true → x = 49%N.
Proof. by apply (lit_code x "1"). Qed.

Lemma range_0_2 x : in_codes "0" "2" x = true → x ∈ [48; 49; 50]%N.
Proof.
  unfold in_codes. intros [Hlo%N.leb_le Hhi%N.leb_le]%andb_true_iff.
  change (N_of_ascii "0") with 48%N in Hlo. change (N_of_ascii "2") with 50%N in Hhi.
  assert (x = 48 ∨ x = 49 ∨ x = 50)%N as Hx by lia.
  destruct_or!; subst x; in_table.
Qed.

Lemma range_1_9 x :
  in_codes "1" "9" x = true → x ∈ [49; 50; 51; 52; 53; 54; 55; 56; 57]%N.
Proof.
  unfold in_codes. intros [Hlo%N.leb_le Hhi%N.leb_le]%andb_true_iff.
  change (N_of_ascii "1") with 49%N in Hlo. change (N_of_ascii "9") with 57%N in Hhi.
  assert (x = 49 ∨ x = 50 ∨ x = 51 ∨ x = 52 ∨ x = 53 ∨ x = 54 ∨ x = 55 ∨ x = 56 ∨ x = 57)%N
    as Hx by lia.
  destruct_or!; subst x; in_table.
Qed.

Ltac resolve_chars :=
  repeat match goal with
  | H : bool_decide (casefold _ = casefold (N_of_ascii "-")) = true |- _ =>
      apply lit_dash in H
  | H : bool_decide (casefold _ = casefold (N_of_ascii ".")) = true |- _ =>
      apply lit_dot in H
  | H : bool_decide (casefold _ = casefold (N_of_ascii "0")) = true |- _ =>
      apply lit_0 in H
  | H : bool_decide (casefold _ = casefold (N_of_ascii "1")) = true |- _ =>
      apply lit_1 in H
  | H : in_codes "0" "2" _ = true |- _ => apply range_0_2 in H
  | H : in_codes "1" "9" _ = true |- _ => apply range_1_9 in H
  | H : _ ∈ _ :: _ |- _ => apply elem_of_cons in H as [H|H]
  | H : _ ∈ [] |- _ => by apply elem_of_nil in H
  | _ => progress simplify_eq
  end.

Lemma re_match_year_month_inv `{Builtins} s found :
  re_match year_month_re s = Some (found, []) →
  ∃ a b c d va vb vc vd mc m,
    found = [("m"%char, mc); ("Y"%char, four a b c d)] ∧
    s = four a b c d ++ codes "-" ++ mc ∧
    decimal_value a = Some va ∧ decimal_value b = Some vb ∧
    decimal_value c = Some vc ∧ decimal_value d = Some vd ∧
    (mc, m) ∈ month_codes.
Proof.
  unfold re_match, year_month_re, year_re, month_re, digit. cbv [rmatch app]. intros Hm.
  repeat case_match; simplify_eq; resolve_chars.
  all: eexists _, _, _, _, _, _, _, _, _, _; split; [reflexivity|]; split; [reflexivity|];
    repeat (split; [eassumption|]); in_table.
Qed.

Lemma re_match_month_year_inv `{Builtins} s found :
  re_match month_year_re s = Some (found, []) →
  ∃ a b c d va vb vc vd mc m,
    found = [("Y"%char, four a b c d); ("m"%char, mc)] ∧
    s = mc ++ codes "." ++ four a b c d ∧
    decimal_value a = Some va ∧ decimal_value b = Some vb ∧
    decimal_value c = Some vc ∧ decimal_value d = Some vd ∧
    (mc, m) ∈ month_codes.
Proof.
  unfold re_match, month_year_re, year_re, month_re, digit. cbv [rmatch app]. intros Hm.
  repeat case_match; simplify_eq; resolve_chars.
  all: eexists _, _, _, _, _, _, _, _, _, _; split; [reflexivity|]; split; [reflexivity|];
    repeat (split; [eassumption|]); in_table.
Qed.

Lemma int_of_digits_four `{Builtins} a b c d va vb vc vd :
  decimal_value a = Some va → decimal_value b = Some vb →
  decimal_value c = Some vc → decimal_value d = Some vd →
  int_of_digits (four a b c d) = 1000 * va + 100 * vb + 10 * vc + vd.
Proof. unfold int_of_digits, four. cbn [foldl]. intros -> -> -> ->. lia. Qed.

Lemma int_of_digits_month `{Builtins} ms m :
  (ms, m) ∈ month_texts → int_of_digits (codes ms) = m.
Proof.
  unfold month_texts. intros Hm.
  repeat (apply elem_of_cons in Hm as [[= -> ->]|Hm];
          [by rewrite int_of_digits_ascii by by repeat constructor|]).
  by apply elem_of_nil in Hm.
Qed.

Lemma year_text_range `{Builtins} ys y : year_text ys y → 0 ≤ y ≤ 9999.
Proof.
  intros (a & b & c & d & va & vb & vc & vd & -> & Ha & Hb & Hc & Hd & ->).
  apply decimal_value_digit in Ha, Hb, Hc, Hd. lia.
Qed.

Lemma year_text_int `{Builtins} ys y : year_text ys y → int_of_digits ys = y.
Proof.
  intros (a & b & c & d & va & vb & vc & vd & -> & Ha & Hb & Hc & Hd & ->).
  by apply int_of_digits_four.
Qed.

(** The conversion of the groups of a year and a month. *)
Lemma datetime_of_groups_year_month `{Builtins} found ys ms y m :
  group found "Y" = Some ys → group found "m" = Some (codes ms) →
  group found "d" = None → group found "H" = None → group found "M" = None →
  group found "S" = None → group found "z" = None →
  year_text ys y → (ms, m) ∈ month_texts →
  datetime_of_groups found
  = if bool_decide (y = 0) then raise (ValueError "year is out of range")
    else mret (first_of_month y m).
Proof.
  intros HY Hm Hd HH HM HS Hz Hys Hms.
  unfold datetime_of_groups. rewrite HY, Hm, Hd, HH, HM, HS, Hz. simpl from_option.
  rewrite (year_text_int _ _ Hys), (int_of_digits_month _ _ Hms).
  pose proof (month_text_range _ _ Hms). pose proof (year_text_range _ _ Hys).
  case_bool_decide as Hzero.
  - subst y. reflexivity.
  - rewrite datetime_new_first by lia. rewrite !bind_mret.
    by rewrite datetime_new_first by lia.
Qed.

Lemma strptime_year_month `{Builtins} s y m :
  year_month_text s y m →
  strptime (JStr s) "%Y-%m"
  = if bool_decide (y = 0) then raise (ValueError "year is out of range")
    else mret (first_of_month y m).
Proof.
  intros (ys & ms & Hs & Hys & Hms).
  pose proof Hys as (a & b & c & d & va & vb & vc & vd & -> & Ha & Hb & Hc & Hd & _).
  unfold strptime. rewrite pattern_year_month, Hs.
  change [a; b; c; d] with (four a b c d).
  rewrite (re_match_year_month _ _ _ _ _ _ _ _ _ _ Ha Hb Hc Hd Hms).
  by apply datetime_of_groups_year_month with (ys := four a b c d) (ms := ms).
Qed.

Lemma strptime_month_year `{Builtins} s y m :
  month_year_text s y m →
  strptime (JStr s) "%m.%Y"
  = if bool_decide (y = 0) then raise (ValueError "year is out of range")
    else mret (first_of_month y m).
Proof.
  intros (ys & ms & Hs & Hys & Hms).
  pose proof Hys as (a & b & c & d & va & vb & vc & vd & -> & Ha & Hb & Hc & Hd & _).
  unfold strptime. rewrite pattern_month_year, Hs.
  change [a; b; c; d] with (four a b c d).
  rewrite (re_match_month_year _ _ _ _ _ _ _ _ _ _ Ha Hb Hc Hd Hms).
  by apply datetime_of_groups_year_month with (ys := four a b c d) (ms := ms).
Qed.

Lemma strptime_year_month_inv `{Builtins} s l dt :
  strptime (JStr s) "%Y-%m" = (l, Return dt) →
  ∃ y m, year_month_text s y m ∧ y ≠ 0 ∧ dt = first_of_month y m ∧ l = [].
Proof.
  intros Hparse.
  assert (∃ y m, year_month_text s y m) as (y & m & Htext).
  { unfold strptime in Hparse. rewrite pattern_year_month in Hparse.
    destruct (re_match year_month_re (code_points s)) as [[found [|]]|] eqn:Hmatch;
      try done.
    apply re_match_year_month_inv in Hmatch
      as (a & b & c & d & va & vb & vc & vd & mc & m & -> & Hs & Ha & Hb & Hc & Hd & Hmc).
    apply month_codes_texts in Hmc as (ms & -> & Hms).
    exists (1000 * va + 100 * vb + 10 * vc + vd), m, (four a b c d), ms.
    split; [done|]. split; [|done]. by exists a, b, c, d, va, vb, vc, vd. }
  exists y, m. rewrite (strptime_year_month _ _ _ Htext) in Hparse.
  case_bool_decide; [done|]. by inversion Hparse.
Qed.

Lemma strptime_month_year_inv `{Builtins} s l dt :
  strptime (JStr s) "%m.%Y" = (l, Return dt) →
  ∃ y m, month_year_text s y m ∧ y ≠ 0 ∧ dt = first_of_month y m ∧ l = [].
Proof.
  intros Hparse.
  assert (∃ y m, month_year_text s y m) as (y & m & Htext).
  { unfold strptime in Hparse. rewrite pattern_month_year in Hparse.
    destruct (re_match month_year_re (code_points s)) as [[found [|]]|] eqn:Hmatch;
      try done.
    apply re_match_month_year_inv in Hmatch
      as (a & b & c & d & va & vb & vc & vd & mc & m & -> & Hs & Ha & Hb & Hc & Hd & Hmc).
    apply month_codes_texts in Hmc as (ms & -> & Hms).
    exists (1000 * va + 100 * vb + 10 * vc + vd), m, (four a b c d), ms.
    split; [done|]. split; [|done]. by exists a, b, c, d, va, vb, vc, vd. }
  exists y, m. rewrite (strptime_month_year _ _ _ Htext) in Hparse.
  case_bool_decide; [done|]. by inversion Hparse.
Qed.

Lemma datetime_new_quiet y m d H M S us tz : quiet (datetime_new y m d H M S us tz).
Proof. unfold datetime_new. repeat case_match; [right..|left]; eauto. Qed.

Lemma timezone_quiet offset : quiet (timezone offset).
Proof. unfold timezone. case_match; [left|right]; eauto. Qed.

Lemma strptime_quiet `{Builtins} s format : quiet (strptime (JStr s) format).
Proof.
  unfold strptime.
  destruct (pattern format) as [re|]; [|right; by eauto].
  destruct (re_match re (code_points s)) as [[found [|]]|]; [|right; by eauto..].
  unfold datetime_of_groups.
  destruct (datetime_new_quiet
    (from_option int_of_digits 1900 (group found "Y"))
    (from_option int_of_digits 1 (group found "m"))
    (from_option int_of_digits 1 (group found "d")) 0 0 0 0 None) as [[dt ->]|[text ->]];
    [|right; by eauto].
  rewrite bind_mret.
  destruct (group found "z") as [z|].
  - destruct (timezone_quiet (utcoffset z)) as [[tz ->]|[text ->]]; [|right; by eauto].
    unfold mret at 1, Py_ret. rewrite fmap_return.
    change ([], Return (Some tz)) with (mret (M := Py) (Some tz)).
    rewrite bind_mret. apply datetime_new_quiet.
  - rewrite bind_mret. apply datetime_new_quiet.
Qed.

(** The full stop is no decimal digit. *)
Lemma full_stop_no_digit `{Builtins} v : decimal_value 46 ≠ Some v.
Proof. by rewrite decimal_value_ascii. Qed.

Lemma not_both_formats `{Builtins} s y m y' m' :
  year_month_text s y m → month_year_text s y' m' → False.
Proof.
  intros (ys & ms & Hs & (a & b & c & d & va & vb & vc & vd & -> & Ha & Hb & Hc & Hd & _) & _)
         (ys' & ms' & Heq & (a' & b' & c' & d' & ? & ? & ? & ? & -> & _) & Hms').
  rewrite Hs in Heq. unfold month_texts in Hms'.
  repeat (apply elem_of_cons in Hms' as [[= -> ->]|Hms'];
          [cbn in Heq; simplify_eq;
           first [by destruct (full_stop_no_digit vb) | by destruct (full_stop_no_digit vc)]|]).
  by apply elem_of_nil in Hms'.
Qed.

Lemma replace_day_first y m :
  1 ≤ y ≤ 9999 → 1 ≤ m ≤ 12 →
  replace_day (first_of_month y m) 1 = mret (first_of_month y m).
Proof. intros. unfold replace_day. simpl. by apply datetime_new_first. Qed.

Lemma attempt_first `{Builtins} s date_format y m :
  strptime (JStr s) date_format = mret (first_of_month y m) →
  1 ≤ y ≤ 9999 → 1 ≤ m ≤ 12 →
  attempt (JStr s) date_format = mret (Some (first_of_month y m)).
Proof.
  intros Hparse Hy Hm. unfold attempt.
  by rewrite Hparse, bind_mret, replace_day_first.
Qed.

Lemma attempt_raise `{Builtins} s date_format text :
  strptime (JStr s) date_format = raise (ValueError text) →
  attempt (JStr s) date_format = raise (ValueError text).
Proof. intros Hparse. unfold attempt. by rewrite Hparse. Qed.

Lemma try_except_mret {A} (a : A) handles handler :
  try_except (mret a) handles handler = mret a.
Proof. reflexivity. Qed.

Lemma try_except_ValueError {A} text (handler : Py A) :
  try_except (raise (ValueError text)) is_ValueError handler = handler.
Proof. unfold try_except, raise. simpl. by destruct handler. Qed.

Lemma _parse_date_unfold `{Builtins} s :
  ConditionBasedServiceReport._parse_date (JStr s)
  = try_except (attempt (JStr s) "%Y-%m") is_ValueError
      (try_except (attempt (JStr s) "%m.%Y") is_ValueError
         ([unknown_format s], Return None)).
Proof. reflexivity. Qed.

(** C4: [_parse_date] tries the format [YYYY-MM] and then [MM.YYYY];
    a text in either format is turned into the first day of its month,
    so that ["2018-02"] and ["02.2018"] both give 1 February 2018; a
    text in neither format is logged and gives [None]; no text makes
    it raise.  The digits of the year are decimal digits as [\d] and
    [int] read them, of ASCII or not.  (The year 0000 is no year: such
    a text gives [None].) *)
Theorem parse_date_spec `{Builtins} (s : string) :
  (∀ y m, year_month_text s y m → y ≠ 0 →
          ConditionBasedServiceReport._parse_date (JStr s) = mret (Some (first_of_month y m))) ∧
  (∀ y m, month_year_text s y m → y ≠ 0 →
          ConditionBasedServiceReport._parse_date (JStr s) = mret (Some (first_of_month y m))) ∧
  ((∀ y m, ¬ year_month_text s y m) → (∀ y m, ¬ month_year_text s y m) →
   ConditionBasedServiceReport._parse_date (JStr s) = ([unknown_format s], Return None)) ∧
  (∀ m, year_month_text s 0 m ∨ month_year_text s 0 m →
        ConditionBasedServiceReport._parse_date (JStr s) = ([unknown_format s], Return None)) ∧
  (∃ r, result (ConditionBasedServiceReport._parse_date (JStr s)) = Return r) ∧
  ConditionBasedServiceReport._parse_date (JStr "2018-02") = mret (Some (first_of_month 2018 2)) ∧
  ConditionBasedServiceReport._parse_date (JStr "02.2018") = mret (Some (first_of_month 2018 2)).
Proof.
  rewrite _parse_date_unfold.
  assert (Hym : ∀ y m, year_month_text s y m → y ≠ 0 →
            attempt (JStr s) "%Y-%m" = mret (Some (first_of_month y m))).
  { intros y m Htext Hy. pose proof Htext as (ys & ms & _ & Hys & Hms).
    apply year_text_range in Hys. apply month_text_range in Hms.
    apply attempt_first; [|lia|lia].
    rewrite (strptime_year_month _ _ _ Htext). by rewrite bool_decide_eq_false_2. }
  assert (Hmy : ∀ y m, month_year_text s y m → y ≠ 0 →
            attempt (JStr s) "%m.%Y" = mret (Some (first_of_month y m))).
  { intros y m Htext Hy. pose proof Htext as (ys & ms & _ & Hys & Hms).
    apply year_text_range in Hys. apply month_text_range in Hms.
    apply attempt_first; [|lia|lia].
    rewrite (strptime_month_year _ _ _ Htext). by rewrite bool_decide_eq_false_2. }
  assert (Hnot_ym : (∀ y m, year_month_text s y m → y = 0) →
            ∃ text, attempt (JStr s) "%Y-%m" = raise (ValueError text)).
  { intros Hnone. destruct (strptime_quiet s "%Y-%m") as [[dt Hdt]|[text Htext]].
    - apply strptime_year_month_inv in Hdt as (y & m & Hym' & Hy & _).
      destruct Hy. by eapply Hnone.
    - exists text. by apply attempt_raise. }
  assert (Hnot_my : (∀ y m, month_year_text s y m → y = 0) →
            ∃ text, attempt (JStr s) "%m.%Y" = raise (ValueError text)).
  { intros Hnone. destruct (strptime_quiet s "%m.%Y") as [[dt Hdt]|[text Htext]].
    - apply strptime_month_year_inv in Hdt as (y & m & Hmy' & Hy & _).
      destruct Hy. by eapply Hnone.
    - exists text. by apply attempt_raise. }
  split; [|split; [|split; [|split; [|split; [|split]]]]].
  - intros y m Htext Hy. by rewrite (Hym y m).
  - intros y m Htext Hy.
    destruct Hnot_ym as [text ->].
    { intros y' m' Htext'. destruct (not_both_formats _ _ _ _ _ Htext' Htext). }
    by rewrite try_except_ValueError, (Hmy y m).
  - intros Hno_ym Hno_my.
    destruct Hnot_ym as [text ->]; [intros y m Htext; by destruct (Hno_ym y m)|].
    destruct Hnot_my as [text' ->]; [intros y m Htext; by destruct (Hno_my y m)|].
    by rewrite !try_except_ValueError.
  - intros m Hzero.
    assert (Hall : ∀ y' m', (year_month_text s y' m' → y' = 0) ∧
                            (month_year_text s y' m' → y' = 0)).
    { intros y' m'. destruct Hzero as [Hzero|Hzero]; split; intros Htext.
      - pose proof (strptime_year_month _ _ _ Hzero) as Hraise.
        rewrite (strptime_year_month _ _ _ Htext) in Hraise.
        by case_bool_decide.
      - destruct (not_both_formats _ _ _ _ _ Hzero Htext).
      - destruct (not_both_formats _ _ _ _ _ Htext Hzero).
      - pose proof (strptime_month_year _ _ _ Hzero) as Hraise.
        rewrite (strptime_month_year _ _ _ Htext) in Hraise.
        by case_bool_decide. }
    destruct Hnot_ym as [text ->]; [intros y' m'; by apply Hall|].
    destruct Hnot_my as [text' ->]; [intros y' m'; by apply Hall|].
    by rewrite !try_except_ValueError.
  - destruct (strptime_quiet s "%Y-%m") as [[dt Hdt]|[text Htext]].
    + pose proof Hdt as (y & m & Htext & Hy & -> & _)%strptime_year_month_inv.
      rewrite (Hym y m) by done. by eexists.
    + rewrite (attempt_raise _ _ _ Htext), try_except_ValueError.
      destruct (strptime_quiet s "%m.%Y") as [[dt Hdt]|[text' Htext']].
      * pose proof Hdt as (y & m & Htext'' & Hy & -> & _)%strptime_month_year_inv.
        rewrite (Hmy y m) by done. by eexists.
      * rewrite (attempt_raise _ _ _ Htext'), try_except_ValueError. by eexists.
  - rewrite parse_date_ascii by done. vm_compute. reflexivity.
  - rewrite parse_date_ascii by done. vm_compute. reflexivity.
Qed.

Lemma parse_date_spec_witness :
  ConditionBasedServiceReport._parse_date (JStr "2018-2") = mret (Some (first_of_month 2018 2)) ∧
  ConditionBasedServiceReport._parse_date (JStr "12.2018") = mret (Some (first_of_month 2018 12)) ∧
  ConditionBasedServiceReport._parse_date (JStr "2018/02")
  = ([unknown_format "2018/02"], Return None) ∧
  ConditionBasedServiceReport._parse_date (JStr "201８-2")
  = mret (Some (first_of_month 2018 2)).
Proof.
  assert (Hyear : year_text (codes "2018") 2018).
  { exists 50%N, 48%N, 49%N, 56%N, 2, 0, 1, 8. by repeat split. }
  split; [|split; [|split]].
  - pose proof (parse_date_spec "2018-2") as (Hym & _).
    apply (Hym 2018 2); [|discriminate].
    exists (codes "2018"), "2". split; [reflexivity|]. split; [exact Hyear|].
    unfold month_texts. in_table.
  - pose proof (parse_date_spec "12.2018") as (_ & Hmy & _).
    apply (Hmy 2018 12); [|discriminate].
    exists (codes "2018"), "12". split; [reflexivity|]. split; [exact Hyear|].
    unfold month_texts. in_table.
  - pose proof (parse_date_spec "2018/02") as (_ & _ & Hnone & _).
    apply Hnone.
    + intros y m (ys & ms & Heq & (a & b & c & d & ? & ? & ? & ? & -> & _) & _).
      change (code_points "2018/02") with [50; 48; 49; 56; 47; 48; 50]%N in Heq.
      discriminate (f_equal (λ l, l !! 4%nat) Heq).
    + intros y m (ys & ms & Heq & (a & b & c & d & ? & ? & ? & ? & -> & _) & Hms).
      change (code_points "2018/02") with [50; 48; 49; 56; 47; 48; 50]%N in Heq.
      unfold month_texts in Hms.
      repeat (apply elem_of_cons in Hms as [[= -> ->]|Hms];
              [first [discriminate (f_equal (λ l, l !! 1%nat) Heq)
                     |discriminate (f_equal (λ l, l !! 2%nat) Heq)]|]).
      by apply elem_of_nil in Hms.
  - pose proof (parse_date_spec "201８-2") as (Hym & _).
    apply (Hym 2018 2); [|discriminate].
    exists [50; 48; 49; 65304]%N, "2". split; [reflexivity|]. split.
    + exists 50%N, 48%N, 49%N, 65304%N, 2, 0, 1, 8. by repeat split.
    + unfold month_texts. in_table.
Defined.

(** ** Missing keys *)

(** C2, as stated, fails for [lids] (and [windows]): none of the names
    of [LIDS] is a key of the empty mapping, and [lids] returns the
    empty list, not [None]. *)
Lemma lids_missing_keys_not_None :
  _attributes (state_of ∅) = Some ∅ ∧
  Forall (λ n, (∅ : gmap string json) !! n = None) LIDS ∧
  lids (state_of ∅) = mret (Some []) ∧
  result (lids (state_of ∅)) ≠ Return None.
Proof.
  split; [reflexivity|]. split; [by repeat constructor|].
  split; [reflexivity|discriminate].
Qed.

Lemma report_without_due_date `{Builtins} (e : gmap string json) :
  e !! "cbsDueDate" = None →
  ConditionBasedServiceReport.__init__ (JObj e) = raise (KeyError "cbsDueDate").
Proof.
  intros He. unfold ConditionBasedServiceReport.__init__, getitem, dict_getitem.
  by rewrite He.
Qed.

(** C2, amended: with the attributes present, an accessor that reads
    one key returns [None], after logging a record, when that key is
    missing; so do [is_vehicle_tracking_enabled] and [gps_position] when
    the position has no status, and [gps_position] when the status is
    ["OK"] and [lat] is missing, or [lat] converts and [lon] is missing;
    so does [condition_based_services] when building a report raises
    [KeyError], as for an entry without [cbsDueDate].  [lids] and
    [windows] skip the names that are missing and return the list of
    the lids that are present. *)
Theorem missing_key_returns_None `{Builtins} (self : VehicleState) (d : gmap string json) :
  _attributes self = Some d →
  (d !! "updateTime" = None → timestamp self = absent) ∧
  (d !! "position" = None →
     is_vehicle_tracking_enabled self = absent ∧ gps_position self = absent) ∧
  (d !! "mileage" = None → mileage self = absent) ∧
  (d !! "remainingRangeFuel" = None → remaining_range_fuel self = absent) ∧
  (d !! "remainingFuel" = None → remaining_fuel self = absent) ∧
  (d !! "doorLockState" = None → door_lock_state self = absent) ∧
  (d !! "updateReason" = None → last_update_reason self = absent) ∧
  (d !! "cbsData" = None → condition_based_services self = absent) ∧
  (d !! "parkingLight" = None → parking_lights self = absent) ∧
  (∀ p, d !! "position" = Some (JObj p) →
     (p !! "status" = None →
        is_vehicle_tracking_enabled self = absent ∧
        gps_position self = ([no_data_record; no_data_record], Return None)) ∧
     (p !! "status" = Some (JStr "OK") → p !! "lat" = None →
        gps_position self = absent) ∧
     (p !! "status" = Some (JStr "OK") →
        ∀ vlat lat, p !! "lat" = Some vlat → py_float vlat = mret lat →
        p !! "lon" = None → gps_position self = absent)) ∧
  (∀ l logs key, d !! "cbsData" = Some (JList l) →
     mapM ConditionBasedServiceReport.__init__ l = (logs, Raise (KeyError key)) →
     condition_based_services self = (logs ++ [no_data_record], Return None)) ∧
  (∀ e l, d !! "cbsData" = Some (JList (JObj e :: l)) → e !! "cbsDueDate" = None →
     condition_based_services self = absent) ∧
  (∀ f, (∀ n, n ∈ LIDS → d !! n = (λ st, JStr (LidState.value st)) <$> f n) →
     lids self = mret (Some (lids_of f LIDS))) ∧
  (∀ f, (∀ n, n ∈ WINDOWS → d !! n = (λ st, JStr (LidState.value st)) <$> f n) →
     windows self = mret (Some (lids_of f WINDOWS))).
Proof.
  intros Hd.
  assert (Hcbs : ∀ l logs key, d !! "cbsData" = Some (JList l) →
     mapM ConditionBasedServiceReport.__init__ l = (logs, Raise (KeyError key)) →
     condition_based_services self = (logs ++ [no_data_record], Return None)).
  { intros l logs key Hl Hraise. unfold condition_based_services.
    eapply backend_parameter_KeyError; [done|].
    rewrite Hd. unfold subscript, dict_getitem. rewrite Hl, bind_mret.
    unfold iterate. rewrite bind_mret. by rewrite Hraise. }
  split_and!.
  - intros Hkey. unfold timestamp.
    by apply (backend_parameter_missing _ (λ _ v, Some <$> _parse_datetime v) _ d).
  - intros Hkey. split.
    + unfold is_vehicle_tracking_enabled.
      by apply (backend_parameter_missing _
        (λ _ pos, status ← getitem pos "status"; mret (Some (eq_str status "OK"))) _ d).
    + unfold gps_position. eapply backend_parameter_KeyError with (l := []); [done|].
      rewrite Hd. unfold subscript, dict_getitem. by rewrite Hkey.
  - intros Hkey. unfold mileage.
    by apply (backend_parameter_missing _ (λ _ v, Some <$> py_float v) _ d).
  - intros Hkey. unfold remaining_range_fuel.
    by apply (backend_parameter_missing _ (λ _ v, Some <$> py_float v) _ d).
  - intros Hkey. unfold remaining_fuel.
    by apply (backend_parameter_missing _ (λ _ v, Some <$> py_float v) _ d).
  - intros Hkey. unfold door_lock_state.
    by apply (backend_parameter_missing _ (λ _ v, Some <$> LockState.call v) _ d).
  - intros Hkey. unfold last_update_reason.
    by apply (backend_parameter_missing _ (λ _ v, mret (raw v)) _ d).
  - intros Hkey. unfold condition_based_services.
    by apply (backend_parameter_missing _
      (λ _ v, l ← iterate v; Some <$> mapM ConditionBasedServiceReport.__init__ l) _ d).
  - intros Hkey. by apply parking_lights_missing with (d := d).
  - intros p Hpos.
    pose proof (is_vehicle_tracking_enabled_eval self d p Hd Hpos) as Henabled.
    assert (Hbody : ∀ k : json → option bool → Py (option (float * float)),
      (pos ← subscript (_attributes self) "position";
       enabled ← is_vehicle_tracking_enabled self; k pos enabled)
      = (enabled ← is_vehicle_tracking_enabled self; k (JObj p) enabled)).
    { intros k. rewrite Hd. unfold subscript, dict_getitem. by rewrite Hpos, bind_mret. }
    split_and!.
    + intros Hstatus. rewrite Hstatus in Henabled. split; [done|].
      unfold gps_position. eapply backend_parameter_KeyError with (l := [no_data_record]);
        [done|].
      rewrite Hd. unfold subscript at 1, dict_getitem. rewrite Hpos, bind_mret.
      rewrite Henabled, bind_return. simpl.
      unfold getitem, dict_getitem. by rewrite Hstatus.
    + intros Hstatus Hlat. rewrite Hstatus in Henabled.
      unfold gps_position. eapply backend_parameter_KeyError with (l := []); [done|].
      rewrite Hd. unfold subscript at 1, dict_getitem. rewrite Hpos, bind_mret.
      rewrite Henabled, bind_mret. simpl eq_str.
      rewrite bool_decide_eq_true_2 by done.
      unfold getitem, dict_getitem. by rewrite Hlat.
    + intros Hstatus vlat lat Hlat Hflat Hlon. rewrite Hstatus in Henabled.
      unfold gps_position. eapply backend_parameter_KeyError with (l := []); [done|].
      rewrite Hd. unfold subscript at 1, dict_getitem. rewrite Hpos, bind_mret.
      rewrite Henabled, bind_mret. simpl eq_str.
      rewrite bool_decide_eq_true_2 by done.
      unfold getitem, dict_getitem. by rewrite Hlat, bind_mret, Hflat, bind_mret, Hlon.
  - exact Hcbs.
  - intros e l Hl He. apply (Hcbs _ [] "cbsDueDate" Hl).
    cbn [mapM]. by rewrite report_without_due_date.
  - intros f Hnames. by apply lids_present with (d := d).
  - intros f Hnames. by apply lids_present with (d := d).
Qed.

Lemma missing_key_returns_None_witness :
  _attributes (state_of ∅) = Some ∅ ∧
  mileage (state_of ∅) = absent ∧
  is_vehicle_tracking_enabled (state_of {[ "position" := JObj ∅ ]}) = absent ∧
  lids (state_of {[ "hood" := JStr "OPEN" ]})
  = mret (Some [{| Lid.name := "hood"; Lid.state := LidState.OPEN |}]).
Proof.
  split; [reflexivity|]. split; [|split].
  - pose proof (missing_key_returns_None (state_of ∅) ∅ eq_refl)
      as (_ & _ & Hmileage & _).
    apply Hmileage. reflexivity.
  - pose proof (missing_key_returns_None (state_of {[ "position" := JObj ∅ ]}) _ eq_refl)
      as (_ & _ & _ & _ & _ & _ & _ & _ & _ & Hpos & _).
    apply (Hpos ∅ eq_refl). reflexivity.
  - pose proof (missing_key_returns_None (state_of {[ "hood" := JStr "OPEN" ]}) _ eq_refl)
      as (_ & _ & _ & _ & _ & _ & _ & _ & _ & _ & _ & _ & Hlids & _).
    rewrite (Hlids (λ n, if bool_decide (n = "hood") then Some LidState.OPEN else None));
      [reflexivity|].
    intros n Hn.
    repeat (apply elem_of_cons in Hn as [->|Hn]; [reflexivity|]).
    by apply elem_of_nil in Hn.
Defined.

(** * Further properties of the module *)

(** ** What the decorator never does *)

(** X1: whatever the decorated function does, a guarded accessor never
    raises [KeyError]: an exception that leaves it is the no-data
    [ValueError] of a state without attributes, or an exception of the
    function that is not a [KeyError], unchanged; a value it returns
    is the value of the function; and with attributes present it adds
    at most the one no-data record to what the function logged. *)
Theorem guarded_accessor_never_KeyError {A} (func : VehicleState → Py (option A))
    (self : VehicleState) :
  (∀ key, result (backend_parameter func self) ≠ Raise (KeyError key)) ∧
  (∀ e, result (backend_parameter func self) = Raise e →
        e = ValueError "No data available!" ∧ _attributes self = None ∨
        result (func self) = Raise e ∧ is_KeyError e = false) ∧
  (∀ v, result (backend_parameter func self) = Return (Some v) →
        result (func self) = Return (Some v)) ∧
  (is_Some (_attributes self) →
     ∃ l, logged (backend_parameter func self) = logged (func self) ++ l ∧
          (l = [] ∨ l = [no_data_record])).
Proof.
  unfold backend_parameter.
  destruct (_attributes self) as [d|]; simpl.
  - destruct (func self) as [l [e|v]]; simpl.
    + destruct e; simpl; split_and!; try done; intros.
      all: try (simplify_eq; by eauto).
      all: try (exists []; rewrite app_nil_r; by eauto).
      all: try (exists [no_data_record]; by eauto).
    + split_and!; try done; intros.
      all: try (exists []; rewrite app_nil_r; by eauto).
  - split_and!; try done; intros; simplify_eq; by eauto.
Qed.

(** ** Lids: what is returned and what is raised *)

Lemma LidState_call_cases v :
  (∃ st, v = JStr (LidState.value st) ∧ LidState.call v = mret st) ∨
  ((∀ st, v ≠ JStr (LidState.value st)) ∧
   LidState.call v = raise (ValueError "is not a valid LidState")).
Proof.
  destruct v as [| | | |s| |]; try (right; split; [by intros []|reflexivity]).
  destruct (decide (s = "CLOSED")) as [->|?]; [left; by exists LidState.CLOSED|].
  destruct (decide (s = "OPEN")) as [->|?]; [left; by exists LidState.OPEN|].
  destruct (decide (s = "INTERMEDIATE")) as [->|?];
    [left; by exists LidState.INTERMEDIATE|].
  right. split; [intros st Heq; destruct st; by simplify_eq|].
  apply enum_call_invalid. simpl. intros Hin.
  repeat (apply elem_of_cons in Hin as [?|Hin]; [done|]). by apply elem_of_nil in Hin.
Qed.

Lemma lids_loop_invalid self d names result :
  _attributes self = Some d →
  (∃ n v, n ∈ names ∧ d !! n = Some v ∧ ∀ st, v ≠ JStr (LidState.value st)) →
  lids_loop self names result = raise (ValueError "is not a valid LidState").
Proof.
  intros Hd. revert result.
  induction names as [|n names IH]; intros result (n0 & v0 & Hin & Hv0 & Hbad).
  { by apply elem_of_nil in Hin. }
  simpl. rewrite Hd. unfold member, subscript, dict_getitem. rewrite bind_mret.
  destruct (d !! n) as [v|] eqn:Hn.
  - rewrite bool_decide_eq_true_2 by eauto. rewrite bind_mret. unfold Lid.__init__.
    destruct (LidState_call_cases v) as [(st & -> & ->)|[Hv ->]]; [|done].
    rewrite !bind_mret. apply IH.
    apply elem_of_cons in Hin as [->|Hin]; [|by eauto].
    rewrite Hn in Hv0. simplify_eq. by destruct (Hbad st).
  - rewrite bool_decide_eq_false_2 by (by intros [? ?]).
    apply IH. apply elem_of_cons in Hin as [->|Hin]; [congruence|by eauto].
Qed.

Lemma lids_of_names (d : gmap string json) f names :
  (∀ n, n ∈ names → d !! n = (λ st, JStr (LidState.value st)) <$> f n) →
  Lid.name <$> lids_of f names
  = List.filter (λ n, bool_decide (is_Some (d !! n))) names ∧
  Forall (λ lid, d !! Lid.name lid = Some (JStr (LidState.value (Lid.state lid))))
         (lids_of f names).
Proof.
  induction names as [|n names IH]; intros Hnames; [done|].
  destruct IH as [IHn IHs]; [intros; apply Hnames; by apply list_elem_of_further|].
  pose proof (Hnames n (list_elem_of_here _ _)) as Hn.
  unfold lids_of. cbn [omap list_omap List.filter]. fold (lids_of f names).
  destruct (f n) as [st|]; cbn [fmap option_fmap option_map] in *; rewrite Hn.
  - rewrite bool_decide_eq_true_2 by eauto. split; [by rewrite fmap_cons, IHn|].
    by constructor.
  - by rewrite bool_decide_eq_false_2 by (by intros [? ?]).
Qed.

Lemma lids_cases names self d :
  _attributes self = Some d →
  ((∀ n v, n ∈ names → d !! n = Some v → ∃ st, v = JStr (LidState.value st)) →
   ∃ l, backend_parameter (λ self, Some <$> lids_loop self names []) self = mret (Some l) ∧
        Lid.name <$> l = List.filter (λ n, bool_decide (is_Some (d !! n))) names ∧
        Forall (λ lid, d !! Lid.name lid = Some (JStr (LidState.value (Lid.state lid)))) l) ∧
  ((∃ n v, n ∈ names ∧ d !! n = Some v ∧ ∀ st, v ≠ JStr (LidState.value st)) →
   backend_parameter (λ self, Some <$> lids_loop self names []) self
   = raise (ValueError "is not a valid LidState")).
Proof.
  intros Hd. split.
  - intros Hvalid.
    set (f := λ n, d !! n ≫= λ v,
           match result (LidState.call v) with Return st => Some st | Raise _ => None end).
    assert (Hf : ∀ n, n ∈ names → d !! n = (λ st, JStr (LidState.value st)) <$> f n).
    { intros n Hn. unfold f. destruct (d !! n) as [v|] eqn:Hv; [|done]. simpl.
      destruct (Hvalid n v Hn Hv) as [st ->]. by rewrite LidState_call_value. }
    exists (lids_of f names). split; [by apply lids_present with (d := d)|].
    by apply lids_of_names.
  - intros Hbad. eapply backend_parameter_raise; [done| |done].
    by rewrite (lids_loop_invalid self d names [] Hd Hbad).
Qed.

(** X2: with the attributes present, [lids] returns a list exactly
    when every lid name that is a key holds a literal of [LidState]:
    the list has one lid for each name of [LIDS] that is a key, in the
    order of [LIDS], with the state that the mapping gives.  When some
    name holds anything else, [lids], [open_lids] and [all_lids_closed]
    raise the [ValueError] of the enumeration.  The same holds of the
    windows. *)
Theorem lids_returned_or_refused (self : VehicleState) (d : gmap string json) :
  _attributes self = Some d →
  ((∀ n v, n ∈ LIDS → d !! n = Some v → ∃ st, v = JStr (LidState.value st)) →
   ∃ l, lids self = mret (Some l) ∧
        Lid.name <$> l = List.filter (λ n, bool_decide (is_Some (d !! n))) LIDS ∧
        Forall (λ lid, d !! Lid.name lid = Some (JStr (LidState.value (Lid.state lid)))) l) ∧
  ((∃ n v, n ∈ LIDS ∧ d !! n = Some v ∧ ∀ st, v ≠ JStr (LidState.value st)) →
   lids self = raise (ValueError "is not a valid LidState") ∧
   open_lids self = raise (ValueError "is not a valid LidState") ∧
   all_lids_closed self = raise (ValueError "is not a valid LidState")) ∧
  ((∀ n v, n ∈ WINDOWS → d !! n = Some v → ∃ st, v = JStr (LidState.value st)) →
   ∃ l, windows self = mret (Some l) ∧
        Window.name <$> l = List.filter (λ n, bool_decide (is_Some (d !! n))) WINDOWS ∧
        Forall (λ lid, d !! Window.name lid
                       = Some (JStr (LidState.value (Window.state lid)))) l) ∧
  ((∃ n v, n ∈ WINDOWS ∧ d !! n = Some v ∧ ∀ st, v ≠ JStr (LidState.value st)) →
   windows self = raise (ValueError "is not a valid LidState") ∧
   open_windows self = raise (ValueError "is not a valid LidState") ∧
   all_windows_closed self = raise (ValueError "is not a valid LidState")).
Proof.
  intros Hd.
  destruct (lids_cases LIDS self d Hd) as [Hlids_ok Hlids_bad].
  destruct (lids_cases WINDOWS self d Hd) as [Hwindows_ok Hwindows_bad].
  split_and!; [done| |done|].
  - intros Hbad. apply Hlids_bad in Hbad.
    unfold all_lids_closed, open_lids. fold lids in Hbad. by rewrite Hbad.
  - intros Hbad. apply Hwindows_bad in Hbad.
    unfold all_windows_closed, open_windows. fold windows in Hbad. by rewrite Hbad.
Qed.

Lemma forallb_closed_lids_of f names :
  forallb Lid.is_closed (lids_of f names)
  = forallb (λ n, match f n with
                  | Some st => bool_decide (st = LidState.CLOSED)
                  | None => true
                  end) names.
Proof.
  induction names as [|n names IH]; [done|].
  unfold lids_of. cbn [omap list_omap forallb]. fold (lids_of f names).
  destruct (f n) as [st|]; cbn [fmap option_fmap option_map]; [|done].
  cbn [forallb]. by rewrite IH.
Qed.

(** X3: a lid whose name is missing does not count as open:
    [all_lids_closed] returns whether every lid that is present is
    [CLOSED], and on a document without any lid name [lids] and
    [open_lids] are empty and [all_lids_closed] is [True].  The same
    holds of the windows. *)
Theorem missing_lids_count_as_closed (self : VehicleState) (d : gmap string json) :
  _attributes self = Some d →
  (∀ f, (∀ n, n ∈ LIDS → d !! n = (λ st, JStr (LidState.value st)) <$> f n) →
     open_lids self = mret (List.filter is_open (lids_of f LIDS)) ∧
     all_lids_closed self
     = mret (forallb (λ n, match f n with
                           | Some st => bool_decide (st = LidState.CLOSED)
                           | None => true
                           end) LIDS)) ∧
  (∀ f, (∀ n, n ∈ WINDOWS → d !! n = (λ st, JStr (LidState.value st)) <$> f n) →
     open_windows self = mret (List.filter is_open (lids_of f WINDOWS)) ∧
     all_windows_closed self
     = mret (forallb (λ n, match f n with
                           | Some st => bool_decide (st = LidState.CLOSED)
                           | None => true
                           end) WINDOWS)) ∧
  ((∀ n, n ∈ LIDS → d !! n = None) →
     lids self = mret (Some []) ∧ open_lids self = mret [] ∧
     all_lids_closed self = mret true) ∧
  ((∀ n, n ∈ WINDOWS → d !! n = None) →
     windows self = mret (Some []) ∧ open_windows self = mret [] ∧
     all_windows_closed self = mret true).
Proof.
  intros Hd.
  assert (Hgen : ∀ names f,
    (∀ n, n ∈ names → d !! n = (λ st, JStr (LidState.value st)) <$> f n) →
    let acc := backend_parameter (λ self, Some <$> lids_loop self names []) in
    acc self = mret (Some (lids_of f names)) ∧
    (l ← acc self; l ← for_in l; mret (List.filter is_open l))
    = mret (List.filter is_open (lids_of f names)) ∧
    (l ← (l ← acc self; l ← for_in l; mret (List.filter is_open l));
     mret (Nat.eqb (length l) 0))
    = mret (forallb (λ n, match f n with
                          | Some st => bool_decide (st = LidState.CLOSED)
                          | None => true
                          end) names)).
  { intros names f Hnames acc.
    assert (acc self = mret (Some (lids_of f names))) as Hacc
      by (by apply lids_present with (d := d)).
    rewrite Hacc. split; [done|]. rewrite bind_mret. unfold for_in.
    rewrite !bind_mret. split; [done|].
    by rewrite forallb_closed_filter, forallb_closed_lids_of. }
  split_and!.
  - intros f Hf. by destruct (Hgen LIDS f Hf) as (_ & ? & ?).
  - intros f Hf. by destruct (Hgen WINDOWS f Hf) as (_ & ? & ?).
  - intros Hnone. destruct (Hgen LIDS (λ _, None)) as (Hl & Ho & Ha); [|done].
    intros n Hn. by rewrite Hnone.
  - intros Hnone. destruct (Hgen WINDOWS (λ _, None)) as (Hl & Ho & Ha); [|done].
    intros n Hn. by rewrite Hnone.
Qed.

(** ** Lock state and parking lights: the literals and nothing else *)

Lemma LockState_call_cases v :
  (∃ x, v = JStr (LockState.value x) ∧ LockState.call v = mret x) ∨
  ((∀ x, v ≠ JStr (LockState.value x)) ∧
   LockState.call v = raise (ValueError "is not a valid LockState")).
Proof.
  destruct v as [| | | |s| |]; try (right; split; [by intros []|reflexivity]).
  destruct (decide (s = "LOCKED")) as [->|?]; [left; by exists LockState.LOCKED|].
  destruct (decide (s = "SECURED")) as [->|?]; [left; by exists LockState.SECURED|].
  destruct (decide (s = "SELECTIVELOCKED")) as [->|?];
    [left; by exists LockState.SELECTIVELOCKED|].
  destruct (decide (s = "UNLOCKED")) as [->|?]; [left; by exists LockState.UNLOCKED|].
  right. split; [intros x Heq; destruct x; by simplify_eq|].
  apply enum_call_invalid. simpl. intros Hin.
  repeat (apply elem_of_cons in Hin as [?|Hin]; [done|]). by apply elem_of_nil in Hin.
Qed.

Lemma ParkingLightState_call_cases v :
  (∃ x, v = JStr (ParkingLightState.value x) ∧ ParkingLightState.call v = mret x) ∨
  ((∀ x, v ≠ JStr (ParkingLightState.value x)) ∧
   ParkingLightState.call v = raise (ValueError "is not a valid ParkingLightState")).
Proof.
  destruct v as [| | | |s| |]; try (right; split; [by intros []|reflexivity]).
  destruct (decide (s = "LEFT")) as [->|?]; [left; by exists ParkingLightState.LEFT|].
  destruct (decide (s = "RIGHT")) as [->|?]; [left; by exists ParkingLightState.RIGHT|].
  destruct (decide (s = "OFF")) as [->|?]; [left; by exists ParkingLightState.OFF|].
  right. split; [intros x Heq; destruct x; by simplify_eq|].
  apply enum_call_invalid. simpl. intros Hin.
  repeat (apply elem_of_cons in Hin as [?|Hin]; [done|]). by apply elem_of_nil in Hin.
Qed.

Lemma door_lock_state_eval self d v :
  _attributes self = Some d → d !! "doorLockState" = Some v →
  door_lock_state self = (Some <$> LockState.call v).
Proof.
  intros Hd Hv. unfold door_lock_state.
  destruct (LockState_call_cases v) as [(x & -> & Hcall)|[_ Hcall]]; rewrite Hcall.
  - eapply backend_parameter_return; [done|].
    rewrite Hd. unfold subscript, dict_getitem. by rewrite Hv, bind_mret, Hcall.
  - eapply backend_parameter_raise; [done| |done].
    rewrite Hd. unfold subscript, dict_getitem. by rewrite Hv, bind_mret, Hcall.
Qed.

Lemma parking_lights_eval self d v :
  _attributes self = Some d → d !! "parkingLight" = Some v →
  parking_lights self = (Some <$> ParkingLightState.call v).
Proof.
  intros Hd Hv. unfold parking_lights.
  assert (Hbody : (attrs ← attributes self; v ← subscript attrs "parkingLight";
                   Some <$> ParkingLightState.call v)
                  = (Some <$> ParkingLightState.call v)).
  { unfold attributes. erewrite backend_parameter_return by done.
    rewrite Hd, bind_return. simpl. unfold dict_getitem. rewrite Hv, bind_mret.
    by destruct (ParkingLightState.call v) as [l [e|x]]. }
  destruct (ParkingLightState_call_cases v) as [(x & -> & Hcall)|[_ Hcall]].
  - rewrite Hcall. eapply backend_parameter_return; [done|]. by rewrite Hbody, Hcall.
  - rewrite Hcall. eapply backend_parameter_raise; [done| |done].
    by rewrite Hbody, Hcall.
Qed.

(** X4: with the key present, [door_lock_state] returns a member [x]
    exactly when the value is the string that is the value of [x], and
    raises [ValueError] for every other JSON value (another string, a
    number, [null]); the same holds of [parking_lights]. *)
Theorem lock_and_lights_decoded (self : VehicleState) (d : gmap string json) :
  _attributes self = Some d →
  (∀ v, d !! "doorLockState" = Some v →
     (∀ x, door_lock_state self = mret (Some x) ↔ v = JStr (LockState.value x)) ∧
     ((∀ x, v ≠ JStr (LockState.value x)) →
      door_lock_state self = raise (ValueError "is not a valid LockState"))) ∧
  (∀ v, d !! "parkingLight" = Some v →
     (∀ x, parking_lights self = mret (Some x) ↔ v = JStr (ParkingLightState.value x)) ∧
     ((∀ x, v ≠ JStr (ParkingLightState.value x)) →
      parking_lights self = raise (ValueError "is not a valid ParkingLightState"))).
Proof.
  intros Hd. split; intros v Hv.
  - rewrite (door_lock_state_eval self d v Hd Hv).
    destruct (LockState_call_cases v) as [(x0 & -> & ->)|[Hbad ->]].
    + split; [|intros Hbad; by destruct (Hbad x0)].
      intros x. split.
      * intros Heq. by inversion Heq.
      * intros Heq. destruct x, x0; by simplify_eq.
    + split; [|done]. intros x. split; [done|]. intros ->. by destruct (Hbad x).
  - rewrite (parking_lights_eval self d v Hd Hv).
    destruct (ParkingLightState_call_cases v) as [(x0 & -> & ->)|[Hbad ->]].
    + split; [|intros Hbad; by destruct (Hbad x0)].
      intros x. split.
      * intros Heq. by inversion Heq.
      * intros Heq. destruct x, x0; by simplify_eq.
    + split; [|done]. intros x. split; [done|]. intros ->. by destruct (Hbad x).
Qed.

(** ** Numbers *)

Lemma float_to_int_quiet f : ∃ r, float_to_int f = ([], r).
Proof. unfold float_to_int. case_match; by eexists. Qed.

Lemma py_float_quiet `{Builtins} v :
  ∃ r, py_float v = ([], r) ∧ ∀ key, r ≠ Raise (KeyError key).
Proof. destruct v; simpl; repeat case_match; by eexists. Qed.

Lemma numeric_accessor `{Builtins} key self d v :
  _attributes self = Some d → d !! key = Some v →
  backend_parameter (λ self, v ← subscript (_attributes self) key; Some <$> py_float v) self
  = (Some <$> py_float v).
Proof.
  intros Hd Hv. destruct (py_float_quiet v) as (r & Hr & Hkey).
  assert (Hbody : (v ← subscript (_attributes self) key; Some <$> py_float v)
                  = (Some <$> py_float v)).
  { rewrite Hd. unfold subscript, dict_getitem. by rewrite Hv, bind_mret. }
  rewrite Hr in *. destruct r as [e|f].
  - eapply backend_parameter_raise; [done|by rewrite Hbody|].
    destruct e; try done. by destruct (Hkey key0).
  - eapply backend_parameter_return; [done|]. by rewrite Hbody.
Qed.

(** X5: with the key present, [mileage], [remaining_range_fuel] and
    [remaining_fuel] are [float] of the value: they never return
    [None], a JSON float comes back as it is, and an exception of
    [float] (as the [TypeError] on [null]) passes the guard. *)
Theorem numbers_pass_the_guard `{Builtins} (self : VehicleState) (d : gmap string json) :
  _attributes self = Some d →
  (∀ v, d !! "mileage" = Some v →
     mileage self = (Some <$> py_float v) ∧ result (mileage self) ≠ Return None) ∧
  (∀ v, d !! "remainingRangeFuel" = Some v →
     remaining_range_fuel self = (Some <$> py_float v) ∧
     result (remaining_range_fuel self) ≠ Return None) ∧
  (∀ v, d !! "remainingFuel" = Some v →
     remaining_fuel self = (Some <$> py_float v) ∧
     result (remaining_fuel self) ≠ Return None) ∧
  (∀ f, d !! "mileage" = Some (JFloat f) → mileage self = mret (Some f)) ∧
  (d !! "mileage" = Some JNull → mileage self = raise TypeError).
Proof.
  intros Hd.
  assert (Hnot_None : ∀ v, result (Some <$> py_float v) ≠ Return None).
  { intros v. destruct (py_float_quiet v) as (r & -> & _). by destruct r. }
  split_and!.
  - intros v Hv. unfold mileage. by rewrite (numeric_accessor _ _ d v).
  - intros v Hv. unfold remaining_range_fuel. by rewrite (numeric_accessor _ _ d v).
  - intros v Hv. unfold remaining_fuel. by rewrite (numeric_accessor _ _ d v).
  - intros f Hv. unfold mileage. by rewrite (numeric_accessor _ _ d _ Hd Hv).
  - intros Hv. unfold mileage. by rewrite (numeric_accessor _ _ d _ Hd Hv).
Qed.

(** ** The timestamp *)

Lemma datetime_new_valid y m d H M S us tz l dt :
  datetime_new y m d H M S us tz = (l, Return dt) →
  match tz with Some offset => -86400 < offset < 86400 | None => True end →
  valid_datetime dt.
Proof.
  unfold datetime_new, between. intros Hnew Htz.
  repeat match type of Hnew with
  | context [if ?b then _ else _] => destruct b eqn:?; [discriminate Hnew|]
  end.
  inversion Hnew; subst; clear Hnew.
  repeat match goal with
  | Hb : negb (_ && _) = false |- _ =>
      apply negb_false_iff, andb_true_iff in Hb as [?%Z.leb_le ?%Z.leb_le]
  end.
  unfold valid_datetime. simpl. by repeat split.
Qed.

Lemma strptime_valid `{Builtins} s format l dt :
  strptime (JStr s) format = (l, Return dt) → valid_datetime dt.
Proof.
  unfold strptime.
  destruct (pattern format) as [re|]; [|done].
  destruct (re_match re (code_points s)) as [[found [|]]|]; [|done..].
  unfold datetime_of_groups.
  destruct (datetime_new_quiet
    (from_option int_of_digits 1900 (group found "Y"))
    (from_option int_of_digits 1 (group found "m"))
    (from_option int_of_digits 1 (group found "d")) 0 0 0 0 None) as [[dt0 ->]|[text ->]];
    [|done].
  rewrite bind_mret.
  destruct (group found "z") as [z|].
  - unfold timezone. case_match eqn:Hoffset; [|done].
    apply andb_true_iff in Hoffset as [?%Z.ltb_lt ?%Z.ltb_lt].
    unfold mret at 1, Py_ret. rewrite fmap_return.
    change ([], Return (Some (utcoffset z))) with (mret (M := Py) (Some (utcoffset z))).
    rewrite bind_mret. intros Hnew. by eapply datetime_new_valid.
  - rewrite bind_mret. intros Hnew. by eapply datetime_new_valid.
Qed.

(** X6: with [updateTime] present, [timestamp] never returns [None]
    and logs nothing: for a string it returns a date and time that the
    constructors accept, or raises the [ValueError] of [strptime]
    (unlike [_parse_date], [_parse_datetime] does not catch it); for
    any other value it raises [TypeError]. *)
Theorem timestamp_parsed_or_refused `{Builtins} (self : VehicleState)
    (d : gmap string json) (v : json) :
  _attributes self = Some d → d !! "updateTime" = Some v →
  (∀ s, v = JStr s →
     (∃ dt, timestamp self = mret (Some dt) ∧ valid_datetime dt) ∨
     (∃ text, timestamp self = raise (ValueError text))) ∧
  ((∀ s, v ≠ JStr s) → timestamp self = raise TypeError).
Proof.
  intros Hd Hv.
  assert (Hbody : (v ← subscript (_attributes self) "updateTime"; Some <$> _parse_datetime v)
                  = (Some <$> _parse_datetime v)).
  { rewrite Hd. unfold subscript, dict_getitem. by rewrite Hv, bind_mret. }
  unfold timestamp. split.
  - intros s ->. unfold _parse_datetime in *.
    destruct (strptime_quiet s "%Y-%m-%dT%H:%M:%S%z") as [[dt Hdt]|[text Htext]].
    + left. exists dt. split; [|by eapply strptime_valid].
      eapply backend_parameter_return; [done|]. by rewrite Hbody, Hdt.
    + right. exists text. eapply backend_parameter_raise; [done| |done].
      by rewrite Hbody, Htext.
  - intros Hnot. eapply backend_parameter_raise; [done| |done].
    rewrite Hbody. unfold _parse_datetime, strptime.
    destruct v; try done. by destruct (Hnot s).
Qed.

(** ** A due date that is no text *)

Lemma parse_date_not_text `{Builtins} v :
  (∀ s, v ≠ JStr s) → ConditionBasedServiceReport._parse_date v = raise TypeError.
Proof. intros Hnot. destruct v; try done. by destruct (Hnot s). Qed.

(** X7: [_parse_date] catches [ValueError] only: for a due date that
    is not a string it raises [TypeError] without logging, so does the
    construction of the report, and so does
    [condition_based_services] when the first entry is such a report. *)
Theorem due_date_must_be_text `{Builtins} (v : json) :
  (∀ s, v ≠ JStr s) →
  ConditionBasedServiceReport._parse_date v = raise TypeError ∧
  (∀ e, e !! "cbsDueDate" = Some v →
     ConditionBasedServiceReport.__init__ (JObj e) = raise TypeError) ∧
  (∀ self d e l, _attributes self = Some d →
     d !! "cbsData" = Some (JList (JObj e :: l)) → e !! "cbsDueDate" = Some v →
     condition_based_services self = raise TypeError).
Proof.
  intros Hnot. pose proof (parse_date_not_text v Hnot) as Hparse.
  assert (Hinit : ∀ e, e !! "cbsDueDate" = Some v →
            ConditionBasedServiceReport.__init__ (JObj e) = raise TypeError).
  { intros e He. unfold ConditionBasedServiceReport.__init__, getitem, dict_getitem.
    by rewrite He, bind_mret, Hparse. }
  split; [done|]. split; [done|].
  intros self d e l Hd Hl He. unfold condition_based_services.
  eapply backend_parameter_raise; [done| |done].
  rewrite Hd. unfold subscript, dict_getitem. rewrite Hl, bind_mret.
  unfold iterate. rewrite bind_mret. cbn [mapM]. by rewrite (Hinit e He).
Qed.

(** ** Reports *)

Lemma bind_return_eq {A B} (k : A → Py B) l a b :
  k a = mret b → ((l, Return a) : Py A) ≫= k = (l, Return b).
Proof. intros Hk. rewrite bind_return, Hk. simpl. by rewrite app_nil_r. Qed.

Lemma fmap_mret {A B} (f : A → B) (a : A) : f <$> (mret a : Py A) = mret (f a).
Proof. reflexivity. Qed.

Lemma bind_return_raise {A B} (k : A → Py B) l a e :
  k a = raise e → ((l, Return a) : Py A) ≫= k = (l, Raise e).
Proof. intros Hk. rewrite bind_return, Hk. simpl. by rewrite app_nil_r. Qed.

Lemma attempt_quiet `{Builtins} s date_format : quiet (attempt (JStr s) date_format).
Proof.
  unfold attempt.
  destruct (strptime_quiet s date_format) as [[dt ->]|[text ->]]; [|right; by eauto].
  rewrite bind_mret. unfold replace_day.
  destruct (datetime_new_quiet (year dt) (month dt) 1 (hour dt) (minute dt) (second dt)
              (microsecond dt) (tzinfo dt)) as [[dt' ->]|[text' ->]];
    [left|right]; by eauto.
Qed.

Lemma parse_date_returns `{Builtins} s :
  ∃ logs due, ConditionBasedServiceReport._parse_date (JStr s) = (logs, Return due).
Proof.
  rewrite _parse_date_unfold.
  destruct (attempt_quiet s "%Y-%m") as [[r ->]|[text ->]]; [by eauto|].
  rewrite try_except_ValueError.
  destruct (attempt_quiet s "%m.%Y") as [[r ->]|[text' ->]]; [by eauto|].
  rewrite try_except_ValueError. by eauto.
Qed.

Lemma Status_call_value st :
  ConditionBasedServiceStatus.call (JStr (ConditionBasedServiceStatus.value st)) = mret st.
Proof. by destruct st. Qed.


(** X8: an entry with a due date text, a literal state, a type and a
    description is turned into a report whatever the text is: the
    report holds what [_parse_date] returns for the text ([None] after
    a logged error when it cannot be read), the state, the type and
    the description as they are, and as distance [None] without
    [cbsRemainingMileage], or the integer that it is. *)
Theorem report_built `{Builtins} (e : gmap string json) (s : string)
    (st : ConditionBasedServiceStatus.t) (ty ds : json) :
  e !! "cbsDueDate" = Some (JStr s) →
  e !! "cbsState" = Some (JStr (ConditionBasedServiceStatus.value st)) →
  e !! "cbsType" = Some ty →
  e !! "cbsDescription" = Some ds →
  ∃ logs due,
    ConditionBasedServiceReport._parse_date (JStr s) = (logs, Return due) ∧
    (e !! "cbsRemainingMileage" = None →
       ConditionBasedServiceReport.__init__ (JObj e)
       = (logs, Return {| ConditionBasedServiceReport.due_date := due;
                          ConditionBasedServiceReport.state := st;
                          ConditionBasedServiceReport.service_type := ty;
                          ConditionBasedServiceReport.due_distance := None;
                          ConditionBasedServiceReport.description := ds |})) ∧
    (∀ z, e !! "cbsRemainingMileage" = Some (JInt z) →
       ConditionBasedServiceReport.__init__ (JObj e)
       = (logs, Return {| ConditionBasedServiceReport.due_date := due;
                          ConditionBasedServiceReport.state := st;
                          ConditionBasedServiceReport.service_type := ty;
                          ConditionBasedServiceReport.due_distance := Some z;
                          ConditionBasedServiceReport.description := ds |})).
Proof.
  intros Hdate Hstate Htype Hdesc.
  destruct (parse_date_returns s) as (logs & due & Hparse).
  exists logs, due. split; [done|].
  unfold ConditionBasedServiceReport.__init__, getitem, contains, dict_getitem.
  rewrite Hdate, bind_mret, Hparse. split.
  - intros Hmileage. apply bind_return_eq.
    rewrite Hstate, bind_mret, Status_call_value, bind_mret, Htype, !bind_mret.
    rewrite Hmileage, bool_decide_eq_false_2 by (by intros [? ?]).
    by rewrite bind_mret, Hdesc, bind_mret.
  - intros z Hmileage. apply bind_return_eq.
    rewrite Hstate, bind_mret, Status_call_value, bind_mret, Htype, !bind_mret.
    rewrite Hmileage, bool_decide_eq_true_2 by eauto.
    rewrite bind_mret. simpl py_int.
    by rewrite fmap_mret, bind_mret, Hdesc, bind_mret.
Qed.



(** ** One report for each entry *)

Lemma mapM_Return {A B} (f : A → Py B) l logs rs :
  mapM f l = (logs, Return rs) → Forall2 (λ x r, result (f x) = Return r) l rs.
Proof.
  revert logs rs. induction l as [|x l IH]; intros logs rs; cbn [mapM].
  - intros [= <- <-]. constructor.
  - destruct (f x) as [l1 [e|y]] eqn:Hx; [done|]. rewrite bind_return.
    destruct (mapM f l) as [l2 [e|k]] eqn:Hl; [done|]. simpl.
    intros [= <- <-]. constructor; [by rewrite Hx|by eapply IH].
Qed.

Lemma mapM_Raise {A B} (f : A → Py B) l logs e :
  mapM f l = (logs, Raise e) → ∃ x, x ∈ l ∧ result (f x) = Raise e.
Proof.
  revert logs. induction l as [|x l IH]; intros logs; cbn [mapM]; [done|].
  destruct (f x) as [l1 [e1|y]] eqn:Hx.
  - intros [= <- <-]. exists x. split; [apply list_elem_of_here|by rewrite Hx].
  - rewrite bind_return. destruct (mapM f l) as [l2 [e2|k]] eqn:Hl; simpl; [|done].
    intros [= <- <-]. destruct (IH l2 eq_refl) as (x' & Hin & Hx').
    exists x'. split; [by apply list_elem_of_further|done].
Qed.

(** X10: when [cbsData] is a list, a list returned by
    [condition_based_services] has one report for each entry, in
    order, each the report built from its entry; [None] is returned
    only when the construction of some entry raised [KeyError]; and an
    exception raised is that of the construction of some entry. *)
Theorem one_report_per_entry `{Builtins} (self : VehicleState) (d : gmap string json)
    (l : list json) :
  _attributes self = Some d → d !! "cbsData" = Some (JList l) →
  (∀ logs rs, condition_based_services self = (logs, Return (Some rs)) →
     length rs = length l ∧
     Forall2 (λ x r, result (ConditionBasedServiceReport.__init__ x) = Return r) l rs) ∧
  (∀ logs, condition_based_services self = (logs, Return None) →
     ∃ x key, x ∈ l ∧
       result (ConditionBasedServiceReport.__init__ x) = Raise (KeyError key)) ∧
  (∀ logs e, condition_based_services self = (logs, Raise e) →
     ∃ x, x ∈ l ∧ result (ConditionBasedServiceReport.__init__ x) = Raise e).
Proof.
  intros Hd Hl.
  assert (Hbody : (v ← subscript (_attributes self) "cbsData"; l ← iterate v;
                   Some <$> mapM ConditionBasedServiceReport.__init__ l)
                  = (Some <$> mapM ConditionBasedServiceReport.__init__ l)).
  { rewrite Hd. unfold subscript, dict_getitem. rewrite Hl, bind_mret.
    unfold iterate. by rewrite bind_mret. }
  unfold condition_based_services, backend_parameter. rewrite Hbody, Hd.
  destruct (mapM ConditionBasedServiceReport.__init__ l) as [logs0 [e0|rs0]] eqn:Hmap;
    simpl.
  - apply mapM_Raise in Hmap as (x & Hin & Hx).
    destruct e0; simpl; split_and!; intros; simplify_eq; by eauto.
  - apply mapM_Return in Hmap.
    split_and!; intros; simplify_eq. split; [|done].
    symmetry. by eapply Forall2_length.
Qed.

(** ** [are_all_cbs_ok] *)

Lemma are_all_cbs_ok_loop_cases l :
  are_all_cbs_ok_loop l
  = match l with [] => mret true | _ :: _ => raise (AttributeError "status") end.
Proof. by destruct l. Qed.

(** X11: [are_all_cbs_ok] never returns [False]: it returns [True]
    for an empty list of reports and raises [AttributeError] for any
    other; and when [cbsData] is missing it does not return [None]
    but raises [TypeError], as it iterates over the [None] of
    [condition_based_services]. *)
Theorem are_all_cbs_ok_never_False `{Builtins} (self : VehicleState) :
  result (are_all_cbs_ok self) ≠ Return false ∧
  (∀ d, _attributes self = Some d → d !! "cbsData" = None →
     are_all_cbs_ok self = ([no_data_record], Raise TypeError)) ∧
  (∀ logs, condition_based_services self = (logs, Return (Some [])) →
     are_all_cbs_ok self = (logs, Return true)) ∧
  (∀ logs r rs, condition_based_services self = (logs, Return (Some (r :: rs))) →
     are_all_cbs_ok self = (logs, Raise (AttributeError "status"))).
Proof.
  unfold are_all_cbs_ok. split_and!.
  - destruct (condition_based_services self) as [logs [e|[rs|]]]; [done| |done].
    rewrite bind_return. unfold for_in. rewrite bind_mret, are_all_cbs_ok_loop_cases.
    by destruct rs.
  - intros d Hd Hkey.
    assert (condition_based_services self = absent) as ->; [|done].
    unfold condition_based_services.
    by apply (backend_parameter_missing _
      (λ _ v, l ← iterate v; Some <$> mapM ConditionBasedServiceReport.__init__ l) _ d).
  - intros logs ->. by apply bind_return_eq.
  - intros logs r rs ->. by apply bind_return_raise.
Qed.

(** ** The position *)

(** X12: when the status of the position is present and is not
    ["OK"], [is_vehicle_tracking_enabled] is [False], and
    [gps_position] returns [None] after logging one warning with the
    vin and the status, whatever [lat] and [lon] are. *)
Theorem position_not_tracked `{Builtins} (self : VehicleState) (d p : gmap string json)
    (status : json) :
  _attributes self = Some d → d !! "position" = Some (JObj p) →
  p !! "status" = Some status → status ≠ JStr "OK" →
  is_vehicle_tracking_enabled self = mret (Some false) ∧
  gps_position self = ([positioning_record self status], Return None).
Proof.
  intros Hd Hpos Hstatus Hnot.
  pose proof (is_vehicle_tracking_enabled_eval self d p Hd Hpos) as Henabled.
  rewrite Hstatus in Henabled.
  assert (eq_str status "OK" = false) as Hfalse.
  { destruct (eq_str status "OK") eqn:Heq; [|done]. by apply eq_str_true in Heq. }
  rewrite Hfalse in Henabled. split; [done|].
  unfold gps_position. eapply backend_parameter_return; [done|].
  rewrite Hd. unfold subscript at 1, dict_getitem. rewrite Hpos, bind_mret.
  rewrite Henabled, bind_mret. rewrite bool_decide_eq_false_2 by done.
  unfold getitem, dict_getitem. by rewrite Hstatus, bind_mret.
Qed.

(** X13: a position that is not a mapping makes
    [is_vehicle_tracking_enabled] and [gps_position] raise
    [TypeError]; with the status ["OK"], an exception of [float] on
    [lat], or on [lon] after [lat], leaves [gps_position] unchanged. *)
Theorem position_errors `{Builtins} (self : VehicleState) (d : gmap string json) :
  _attributes self = Some d →
  (∀ v, d !! "position" = Some v → (∀ p, v ≠ JObj p) →
     is_vehicle_tracking_enabled self = raise TypeError ∧
     gps_position self = raise TypeError) ∧
  (∀ p vlat e, d !! "position" = Some (JObj p) → p !! "status" = Some (JStr "OK") →
     p !! "lat" = Some vlat → py_float vlat = raise e →
     gps_position self = raise e) ∧
  (∀ p vlat lat vlon e, d !! "position" = Some (JObj p) →
     p !! "status" = Some (JStr "OK") →
     p !! "lat" = Some vlat → py_float vlat = mret lat →
     p !! "lon" = Some vlon → py_float vlon = raise e →
     gps_position self = raise e).
Proof.
  intros Hd. split_and!.
  - intros v Hpos Hnot.
    assert (Hget : getitem v "status" = raise TypeError).
    { destruct v; try done. by destruct (Hnot d0). }
    assert (is_vehicle_tracking_enabled self = raise TypeError) as Henabled.
    { unfold is_vehicle_tracking_enabled. eapply backend_parameter_raise; [done| |done].
      rewrite Hd. unfold subscript, dict_getitem. by rewrite Hpos, bind_mret, Hget. }
    split; [done|].
    unfold gps_position. eapply backend_parameter_raise; [done| |done].
    rewrite Hd. unfold subscript at 1, dict_getitem. rewrite Hpos, bind_mret.
    by rewrite Henabled.
  - intros p vlat e Hpos Hstatus Hlat Hfloat.
    pose proof (is_vehicle_tracking_enabled_eval self d p Hd Hpos) as Henabled.
    rewrite Hstatus in Henabled.
    destruct (py_float_quiet vlat) as (r & Hr & Hkey). rewrite Hfloat in Hr.
    unfold gps_position. eapply backend_parameter_raise; [done| |].
    + rewrite Hd. unfold subscript at 1, dict_getitem. rewrite Hpos, bind_mret.
      rewrite Henabled, bind_mret. simpl eq_str. rewrite bool_decide_eq_true_2 by done.
      unfold getitem, dict_getitem. by rewrite Hlat, bind_mret, Hfloat.
    + destruct e; try done. injection Hr as <-. by destruct (Hkey key).
  - intros p vlat lat vlon e Hpos Hstatus Hlat Hflat Hlon Hfloat.
    pose proof (is_vehicle_tracking_enabled_eval self d p Hd Hpos) as Henabled.
    rewrite Hstatus in Henabled.
    destruct (py_float_quiet vlon) as (r & Hr & Hkey). rewrite Hfloat in Hr.
    unfold gps_position. eapply backend_parameter_raise; [done| |].
    + rewrite Hd. unfold subscript at 1, dict_getitem. rewrite Hpos, bind_mret.
      rewrite Henabled, bind_mret. simpl eq_str. rewrite bool_decide_eq_true_2 by done.
      unfold getitem, dict_getitem.
      by rewrite Hlat, bind_mret, Hflat, bind_mret, Hlon, bind_mret, Hfloat.
    + destruct e; try done. injection Hr as <-. by destruct (Hkey key).
Qed.

(** ** Refreshing *)

(** X14: when the request and the decoding of the response go through
    and the document is a mapping with [vehicleStatus], [update_data]
    logs its two records around those of the transport and stores the
    value in place of the attributes, whatever they were, keeping the
    account and the vehicle: a mapping is then what [attributes]
    returns; [null] leaves a state without data, whose accessors raise
    the no-data error; any other value is stored as it is. *)
Theorem update_data_stores `{Transport} (self : VehicleState) (l1 l2 : list LogRecord)
    (response : Py json) (document : gmap string json) :
  send_request (_account self)
    (VEHICLE_STATUS_URL (server_url (_account self)) (vin (_vehicle self))) "status"
  = (l1, Return response) →
  response = (l2, Return (JObj document)) →
  (∀ d, document !! "vehicleStatus" = Some (JObj d) →
     ∃ self', update_data self
              = (requesting_record :: l1 ++ l2 ++ [received_record], Return (Stored self')) ∧
       _attributes self' = Some d ∧ _account self' = _account self ∧
       _vehicle self' = _vehicle self ∧ attributes self' = mret (Some d)) ∧
  (document !! "vehicleStatus" = Some JNull →
     ∃ self', update_data self
              = (requesting_record :: l1 ++ l2 ++ [received_record], Return (Stored self')) ∧
       _attributes self' = None ∧ attributes self' = no_data) ∧
  (∀ v, document !! "vehicleStatus" = Some v → v ≠ JNull → (∀ d, v ≠ JObj d) →
     update_data self
     = (requesting_record :: l1 ++ l2 ++ [received_record], Return (NotAMapping v))).
Proof.
  intros Hsend ->.
  assert (Hrun : ∀ v, document !! "vehicleStatus" = Some v →
    update_data self
    = (requesting_record :: l1 ++ l2 ++ [received_record], Return (assign self v))).
  { intros v Hv. unfold update_data, log. rewrite Hsend.
    rewrite !bind_return. unfold getitem, dict_getitem. by rewrite Hv. }
  split_and!.
  - intros d Hv. eexists. split; [by rewrite (Hrun _ Hv)|]. by simpl.
  - intros Hv. eexists. split; [by rewrite (Hrun _ Hv)|]. by simpl.
  - intros v Hv Hnull Hobj. rewrite (Hrun v Hv). destruct v; try done.
    by destruct (Hobj d).
Qed.

(** X15: [update_data] has no guard: an exception of the request or
    of the decoding of the response leaves it unchanged, a document
    without [vehicleStatus] raises [KeyError] and a document that is
    not a mapping raises [TypeError]; in each case the second record
    is not logged. *)
Theorem update_data_fails `{Transport} (self : VehicleState) :
  (∀ l1 e,
     send_request (_account self)
       (VEHICLE_STATUS_URL (server_url (_account self)) (vin (_vehicle self))) "status"
     = (l1, Raise e) →
     update_data self = (requesting_record :: l1, Raise e)) ∧
  (∀ l1 l2 response,
     send_request (_account self)
       (VEHICLE_STATUS_URL (server_url (_account self)) (vin (_vehicle self))) "status"
     = (l1, Return response) →
     (∀ e, response = (l2, Raise e) →
        update_data self = (requesting_record :: l1 ++ l2, Raise e)) ∧
     (∀ document, response = (l2, Return (JObj document)) →
        document !! "vehicleStatus" = None →
        update_data self = (requesting_record :: l1 ++ l2, Raise (KeyError "vehicleStatus"))) ∧
     (∀ v, response = (l2, Return v) → (∀ document, v ≠ JObj document) →
        update_data self = (requesting_record :: l1 ++ l2, Raise TypeError))).
Proof.
  split.
  - intros l1 e Hsend. unfold update_data. by rewrite Hsend.
  - intros l1 l2 response Hsend. split_and!.
    + intros e ->. unfold update_data, log. rewrite Hsend.
      rewrite !bind_return. simpl. by rewrite ?app_nil_r.
    + intros document -> Hv. unfold update_data, log. rewrite Hsend.
      rewrite !bind_return. unfold getitem, dict_getitem. rewrite Hv. simpl.
      by rewrite ?app_nil_r.
    + intros v -> Hnot. unfold update_data, log. rewrite Hsend.
      rewrite !bind_return.
      assert (getitem v "vehicleStatus" = raise TypeError) as ->.
      { destruct v; try done. by destruct (Hnot d). }
      simpl. by rewrite ?app_nil_r.
Qed.

(** ** The text of a lid *)

Lemma append_colon_inj (n1 n2 r1 r2 : string) :
  ":"%char ∉ list_ascii_of_string n1 → ":"%char ∉ list_ascii_of_string n2 →
  n1 +:+ String ":" r1 = n2 +:+ String ":" r2 → n1 = n2 ∧ r1 = r2.
Proof.
  revert n2. induction n1 as [|c1 n1 IH]; intros [|c2 n2] H1 H2 Heq;
    cbn [String.append list_ascii_of_string] in *.
  - by simplify_eq.
  - injection Heq as <- _. destruct H2. apply list_elem_of_here.
  - injection Heq as -> _. destruct H1. apply list_elem_of_here.
  - injection Heq as -> Heq.
    destruct (IH n2) as [-> ->]; [..|done|done].
    + intros Hin. apply H1. by apply list_elem_of_further.
    + intros Hin. apply H2. by apply list_elem_of_further.
Qed.

(** X16: the text of a lid, its name, a colon, a blank and the value
    of its state, identifies the lid among the lids whose names have
    no colon. *)
Theorem lid_text_identifies (lid1 lid2 : Lid.t) :
  ":"%char ∉ list_ascii_of_string (Lid.name lid1) →
  ":"%char ∉ list_ascii_of_string (Lid.name lid2) →
  Lid.__str__ lid1 = Lid.__str__ lid2 → lid1 = lid2.
Proof.
  intros H1 H2. unfold Lid.__str__. intros Heq.
  destruct lid1 as [n1 s1], lid2 as [n2 s2]. simpl in *.
  apply (append_colon_inj n1 n2) in Heq as [-> Heq]; [|done..].
  f_equal. destruct s1, s2; by simplify_eq.
Qed.

(** ** The properties at work *)

Lemma guarded_accessor_never_KeyError_witness :
  result (backend_parameter (A := unit) (λ _, raise (KeyError "mileage")) (state_of ∅))
  ≠ Raise (KeyError "mileage").
Proof.
  apply (guarded_accessor_never_KeyError (A := unit)
           (λ _, raise (KeyError "mileage")) (state_of ∅)).
Defined.

Lemma lids_returned_or_refused_witness :
  lids (state_of {[ "hood" := JStr "AJAR" ]}) = raise (ValueError "is not a valid LidState") ∧
  ∃ l, windows (state_of {[ "windowDriverRear" := JStr "OPEN" ]}) = mret (Some l) ∧
       Window.name <$> l = ["windowDriverRear"].
Proof.
  split.
  - pose proof (lids_returned_or_refused (state_of {[ "hood" := JStr "AJAR" ]}) _ eq_refl)
      as (_ & Hbad & _).
    apply Hbad. exists "hood", (JStr "AJAR"). split; [|split; [reflexivity|]].
    + unfold LIDS. repeat first [apply list_elem_of_here | apply list_elem_of_further].
    + intros st. destruct st; discriminate.
  - pose proof (lids_returned_or_refused
      (state_of {[ "windowDriverRear" := JStr "OPEN" ]}) _ eq_refl) as (_ & _ & Hok & _).
    destruct Hok as (l & Hl & Hnames & _).
    + intros n v Hn Hv.
      repeat (apply elem_of_cons in Hn as [->|Hn];
              [first [discriminate Hv | injection Hv as <-; by exists LidState.OPEN]|]).
      by apply elem_of_nil in Hn.
    + exists l. split; [exact Hl|exact Hnames].
Defined.

Lemma missing_lids_count_as_closed_witness :
  all_lids_closed (state_of ∅) = mret true ∧
  all_windows_closed (state_of {[ "mileage" := JInt 2201 ]}) = mret true.
Proof.
  split.
  - pose proof (missing_lids_count_as_closed (state_of ∅) ∅ eq_refl) as (_ & _ & Hnone & _).
    apply Hnone. intros n _. reflexivity.
  - pose proof (missing_lids_count_as_closed (state_of {[ "mileage" := JInt 2201 ]}) _
                  eq_refl) as (_ & _ & _ & Hnone).
    apply Hnone. intros n Hn.
    repeat (apply elem_of_cons in Hn as [->|Hn]; [reflexivity|]).
    by apply elem_of_nil in Hn.
Defined.

Lemma lock_and_lights_decoded_witness :
  door_lock_state (state_of {[ "doorLockState" := JStr "SECURED" ]})
  = mret (Some LockState.SECURED) ∧
  parking_lights (state_of {[ "parkingLight" := JNull ]})
  = raise (ValueError "is not a valid ParkingLightState").
Proof.
  split.
  - pose proof (lock_and_lights_decoded
      (state_of {[ "doorLockState" := JStr "SECURED" ]}) _ eq_refl) as [Hlock _].
    apply (Hlock (JStr "SECURED") eq_refl). reflexivity.
  - pose proof (lock_and_lights_decoded
      (state_of {[ "parkingLight" := JNull ]}) _ eq_refl) as [_ Hlight].
    apply (Hlight JNull eq_refl). intros x. discriminate.
Defined.

Lemma numbers_pass_the_guard_witness :
  mileage (state_of status_document) = mret (Some 2201%float) ∧
  remaining_fuel (state_of {[ "remainingFuel" := JNull ]}) = raise TypeError.
Proof.
  split.
  - pose proof (numbers_pass_the_guard (state_of status_document) _ eq_refl)
      as (Hmileage & _).
    destruct (Hmileage (JInt 2201) eq_refl) as [-> _]. vm_compute. reflexivity.
  - pose proof (numbers_pass_the_guard (state_of {[ "remainingFuel" := JNull ]}) _ eq_refl)
      as (_ & _ & Hfuel & _).
    destruct (Hfuel JNull eq_refl) as [-> _]. reflexivity.
Defined.

Lemma timestamp_parsed_or_refused_witness :
  ((∃ dt, timestamp (state_of status_document) = mret (Some dt) ∧ valid_datetime dt) ∨
   (∃ text, timestamp (state_of status_document) = raise (ValueError text))) ∧
  timestamp (state_of {[ "updateTime" := JInt 1518869736 ]}) = raise TypeError.
Proof.
  split.
  - eapply (timestamp_parsed_or_refused (state_of status_document)); reflexivity.
  - eapply (timestamp_parsed_or_refused (state_of {[ "updateTime" := JInt 1518869736 ]}));
      [reflexivity|reflexivity|discriminate].
Defined.

Lemma due_date_must_be_text_witness :
  ConditionBasedServiceReport._parse_date (JInt 201802) = raise TypeError.
Proof. apply (due_date_must_be_text (JInt 201802)). discriminate. Defined.

Lemma report_built_witness :
  ∃ logs due,
    ConditionBasedServiceReport.__init__ (JObj service_entry)
    = (logs, Return {| ConditionBasedServiceReport.due_date := due;
                       ConditionBasedServiceReport.state := ConditionBasedServiceStatus.OK;
                       ConditionBasedServiceReport.service_type := JStr "OIL";
                       ConditionBasedServiceReport.due_distance := None;
                       ConditionBasedServiceReport.description := JStr "Next oil change" |}).
Proof.
  destruct (report_built service_entry "2018-02" ConditionBasedServiceStatus.OK
              (JStr "OIL") (JStr "Next oil change") eq_refl eq_refl eq_refl eq_refl)
    as (logs & due & _ & Hnone & _).
  exists logs, due. apply Hnone. reflexivity.
Defined.


Lemma one_report_per_entry_witness :
  ∃ rs, condition_based_services (state_of service_document) = mret (Some rs) ∧
        length rs = 1%nat.
Proof.
  eexists. split; [vm_compute; reflexivity|].
  pose proof (one_report_per_entry (state_of service_document) service_document
                [JObj service_entry] eq_refl eq_refl) as (Hsome & _).
  eapply Hsome. vm_compute. reflexivity.
Defined.

Lemma are_all_cbs_ok_never_False_witness :
  result (are_all_cbs_ok (state_of service_document)) ≠ Return false.
Proof. apply (are_all_cbs_ok_never_False (state_of service_document)). Defined.

Lemma position_not_tracked_witness :
  gps_position (state_of tracking_disabled_document)
  = ([positioning_record (state_of tracking_disabled_document) (JStr "OK_DISABLED")],
     Return None).
Proof.
  eapply (position_not_tracked (state_of tracking_disabled_document));
    [reflexivity|reflexivity|reflexivity|discriminate].
Defined.

Lemma position_errors_witness :
  gps_position (state_of {[ "position" := JStr "48.1,11.5" ]}) = raise TypeError.
Proof.
  pose proof (position_errors (state_of {[ "position" := JStr "48.1,11.5" ]}) _ eq_refl)
    as (Hshape & _).
  apply (Hshape (JStr "48.1,11.5") eq_refl). discriminate.
Defined.

Lemma update_data_stores_witness :
  ∃ self',
    @update_data (answering (JObj {[ "vehicleStatus" := JObj status_document ]}))
      (__init__ account vehicle)
    = ([requesting_record; received_record], Return (Stored self')) ∧
    _attributes self' = Some status_document.
Proof.
  pose proof (@update_data_stores
    (answering (JObj {[ "vehicleStatus" := JObj status_document ]}))
    (__init__ account vehicle) [] [] _ {[ "vehicleStatus" := JObj status_document ]}
    eq_refl eq_refl) as (Hstored & _).
  destruct (Hstored status_document eq_refl) as (self' & Hrun & Hattrs & _).
  exists self'. split; [exact Hrun|exact Hattrs].
Defined.

Lemma update_data_fails_witness :
  @update_data (answering (JObj ∅)) (state_of status_document)
  = ([requesting_record], Raise (KeyError "vehicleStatus")) ∧
  @update_data (failing OverflowError) (state_of status_document)
  = ([requesting_record], Raise OverflowError).
Proof.
  split.
  - pose proof (@update_data_fails (answering (JObj ∅)) (state_of status_document))
      as (_ & Hresponse).
    destruct (Hresponse [] [] _ eq_refl) as (_ & Hmissing & _).
    apply (Hmissing ∅ eq_refl). reflexivity.
  - pose proof (@update_data_fails (failing OverflowError) (state_of status_document))
      as (Hrequest & _).
    apply (Hrequest [] OverflowError eq_refl).
Defined.

Lemma lid_text_identifies_witness :
  Lid.__str__ {| Lid.name := "hood"; Lid.state := LidState.OPEN |} = "hood: OPEN" ∧
  {| Lid.name := "hood"; Lid.state := LidState.OPEN |}
  = {| Lid.name := "hood"; Lid.state := LidState.OPEN |}.
Proof.
  split; [reflexivity|].
  apply lid_text_identifies; [| |reflexivity].
  - intros Hin. repeat (apply elem_of_cons in Hin as [Hin|Hin]; [discriminate|]).
    by apply elem_of_nil in Hin.
  - intros Hin. repeat (apply elem_of_cons in Hin as [Hin|Hin]; [discriminate|]).
    by apply elem_of_nil in Hin.
Defined.
